(** * Scheduled announcements (cogs/commands/announce.py)

    A shallow embedding of the announcement cog: the [Announcement] table
    behind [db_session], the command handlers of the [Announcements] cog
    ([add], [list], [cancel], [check], [mention]), the preview menu and the
    background task [announcement_check].

    Python exceptions are modelled by an outcome type, the SQLAlchemy
    session and everything that is sent to the chat platform by an explicit
    world that every handler threads through. *)

From Stdlib Require Import String Ascii List ZArith Bool Lia DecimalString.
Import ListNotations.
Local Open Scope string_scope.
Local Open Scope Z_scope.

(** ** Data model *)

(** A row of the [Announcement] table (models.Announcement), with the
    columns the cog reads and writes.  [trigger_at] is a [datetime], kept
    as a count of microseconds. *)
Record Announcement := mkAnnouncement {
  id : Z;
  user_id : Z;
  announcement_content : string;
  trigger_at : Z;
  triggered : bool;
  playback_channel_id : Z;
  irc_name : option string
}.

Definition Table := list Announcement.

(** The exceptions the cog raises, catches or lets through. *)
Inductive exn :=
| AttributeError
| MissingPermissions
| Forbidden
| SQLAlchemyError
| ScalarListException
| OtherException (what : string).

Inductive Outcome (A : Type) :=
| Return (a : A)
| Raise (e : exn).
Arguments Return {A} a.
Arguments Raise {A} e.

Record Channel := mkChannel { channel_id : Z }.
Record Webhook := mkWebhook { webhook_name : string }.
Record User := mkUser { name : string; avatar_url : string; mention_of_user : string }.
Record DbUser := mkDbUser { db_id : Z; user_uid : Z }.
Record Role := mkRole { role_name : string; role_mention : string }.

(** discord.AllowedMentions, as far as the cog builds it. *)
Inductive AllowedMentions := Mentions_all | Mentions_none.

Definition Message := nat.

(** What the handlers do to the store and to the platform, in the order
    they do it: [EvDue] is the answer to the scheduler's query, [EvTriggered]
    the assignment [a.triggered = True] to the row with that primary key. *)
Inductive Event :=
| EvDue (result : list Announcement)
| EvTriggered (key : Z)
| EvCommit (tbl : Table)
| EvRollback
| EvSend (chan : Z) (text : string) (mentions : option AllowedMentions) (m : Message)
| EvGenerate (chan : option Channel) (text : string) (hook : option Webhook)
             (author : option string) (avatar : option string)
             (mentions : option AllowedMentions)
| EvPost (chunk : string) (m : Message)
| EvDelete (m : Message)
| EvProcessCommands (message_id : Z)
| EvLogException (e : exn).

(** The world: the committed table, the session's view of it (with the
    changes not yet committed), the trace of events, oldest first, and the
    handle of the next message the platform creates. *)
Record World := mkWorld {
  db : Table;
  session : Table;
  log : list Event;
  next_msg : Message
}.

(** The host: the bot, the platform and the helpers of the [utils] package,
    which the cog calls and whose answers it does not control.
    [timestamp_int t] is [int(t.timestamp())], a conversion through a
    float that is the platform's. *)
Record Host := mkHost {
  get_channel : Z -> option Channel;
  channel_webhooks : Channel -> Outcome (list Webhook);
  channel_create_webhook : Channel -> string -> Outcome Webhook;
  get_user : Z -> option User;
  bot_user : User;
  announcement_user : Announcement -> option DbUser;
  get_database_user : User -> option DbUser;
  ANNOUNCEMENT_IMPERSONATE : bool;
  ANNOUNCEMENT_SEARCH_INTERVAL : Z;
  precisedelta : Z -> string;
  timestamp_int : Z -> Z;
  generate_announcement_result :
    option Channel -> string -> option Webhook -> option string ->
    option string -> option AllowedMentions -> list string * option exn;
  commit_result : Table -> option exn;
  split_into_messages : list string -> list string;
  await_reaction : option string
}.

(** The invocation context of a command. *)
Record Context := mkContext {
  ctx_channel : Channel;
  ctx_author : User;
  ctx_message_id : Z;
  get_name_string : string;
  user_is_irc_bot : bool
}.

(** ** The monad of handlers: state, trace and exceptions *)

Definition M (A : Type) := World -> Outcome A * World.

Definition ret {A} (a : A) : M A := fun w => (Return a, w).

Definition raise {A} (e : exn) : M A := fun w => (Raise e, w).

Definition bind {A B} (c : M A) (k : A -> M B) : M B :=
  fun w => match c w with
           | (Return a, w') => k a w'
           | (Raise e, w') => (Raise e, w')
           end.

Declare Scope handler_scope.
Delimit Scope handler_scope with handler.
Notation "x <- c ;; k" := (bind c (fun x => k))
  (at level 61, c at next level, right associativity) : handler_scope.
Notation "c ;; k" := (bind c (fun _ => k))
  (at level 61, right associativity) : handler_scope.
Local Open Scope handler_scope.

(** [try: c  except <caught>: handler]. *)
Definition try_except {A} (c : M A) (caught : exn -> bool) (handler : exn -> M A) : M A :=
  fun w => match c w with
           | (Return a, w') => (Return a, w')
           | (Raise e, w') => if caught e then handler e w' else (Raise e, w')
           end.

Definition emit (e : Event) : M unit :=
  fun w => (Return tt, mkWorld (db w) (session w) (log w ++ [e]) (next_msg w)).

Definition fresh_message : M Message :=
  fun w => (Return (next_msg w), mkWorld (db w) (session w) (log w) (S (next_msg w))).

Definition get_session : M Table := fun w => (Return (session w), w).

Definition put_session (t : Table) : M unit :=
  fun w => (Return tt, mkWorld (db w) t (log w) (next_msg w)).

(** Attribute access on a value that may be [None]. *)
Definition attr {A} (o : option A) : M A :=
  match o with
  | Some a => ret a
  | None => raise AttributeError
  end.

Fixpoint mapM {A B} (f : A -> M B) (l : list A) : M (list B) :=
  match l with
  | [] => ret []
  | x :: l' => y <- f x ;; ys <- mapM f l' ;; ret (y :: ys)
  end.

Fixpoint forM_ {A} (l : list A) (f : A -> M unit) : M unit :=
  match l with
  | [] => ret tt
  | x :: l' => f x ;; forM_ l' f
  end.

(** ** The session *)

(** [db_session.commit()]: the session's changes reach the table, unless
    the store refuses them. *)
Definition commit (h : Host) : M unit :=
  fun w => match commit_result h (session w) with
           | None => (Return tt,
                      mkWorld (session w) (session w)
                              (log w ++ [EvCommit (session w)]) (next_msg w))
           | Some e => (Raise e, w)
           end.

(** [db_session.rollback()]. *)
Definition rollback : M unit :=
  fun w => (Return tt, mkWorld (db w) (db w) (log w ++ [EvRollback]) (next_msg w)).

(** [db_session.query(Announcement).where(Announcement.id == i).first()]. *)
Definition query_first (i : Z) (t : Table) : option Announcement :=
  find (fun a => id a =? i) t.

(** [db_session.delete(result)]: the row with the primary key of [result]. *)
Definition delete_row (result : Announcement) (t : Table) : Table :=
  filter (fun a => negb (id a =? id result)) t.

(** Assignment to a column of a loaded row: the row with that primary key
    changes. *)
Definition update_row (i : Z) (f : Announcement -> Announcement) (t : Table) : Table :=
  map (fun a => if id a =? i then f a else a) t.

Definition set_triggered (b : bool) (a : Announcement) : Announcement :=
  mkAnnouncement (id a) (user_id a) (announcement_content a) (trigger_at a)
                 b (playback_channel_id a) (irc_name a).

Definition set_content (s : string) (a : Announcement) : Announcement :=
  mkAnnouncement (id a) (user_id a) s (trigger_at a)
                 (triggered a) (playback_channel_id a) (irc_name a).

(** The primary key the store gives to a new row. *)
Definition fresh_id (t : Table) : Z :=
  1 + fold_right (fun a m => Z.max (id a) m) 0 t.

(** [db_session.add(Announcement(...))]. *)
Definition add_row (a : Announcement) (t : Table) : Table :=
  (t ++ [mkAnnouncement (fresh_id t) (user_id a) (announcement_content a)
                        (trigger_at a) (triggered a) (playback_channel_id a)
                        (irc_name a)])%list.

(** Truth value of an optional string: [None] and the empty string are false. *)
Definition truthy (o : option string) : bool :=
  match o with
  | Some s => negb (s =? "")%string
  | None => false
  end.

Definition nl : string := String (ascii_of_nat 10) EmptyString.
Definition tab : string := String (ascii_of_nat 9) EmptyString.

Definition str_of_Z (z : Z) : string := NilZero.string_of_int (Z.to_int z).


(** ** Talking to the platform *)

Definition lift_outcome {A} (o : Outcome A) : M A :=
  match o with
  | Return a => ret a
  | Raise e => raise e
  end.

(** [channel.send(text)] and [ctx.send(text)]: the message created is
    returned. *)
Definition channel_send (c : Channel) (text : string)
           (mentions : option AllowedMentions) : M Message :=
  m <- fresh_message ;;
  emit (EvSend (channel_id c) text mentions m) ;;
  ret m.

Definition ctx_send (ctx : Context) (text : string)
           (mentions : option AllowedMentions) : M Message :=
  channel_send (ctx_channel ctx) text mentions.

(** [msg.delete()]. *)
Definition message_delete (m : Message) : M unit := emit (EvDelete m).

Definition is_MissingPermissions (e : exn) : bool :=
  match e with
  | MissingPermissions => true
  | _ => false
  end.

(** [get_webhook(channel)]: the webhook named Apollo Announcements of the
    channel, created when there is none; [None] when [MissingPermissions]
    is raised.  Only that exception is caught: whatever else the platform
    raises, [Forbidden] on a refusal, passes through, and a channel that is
    [None] has no [webhooks] attribute. *)
Definition get_webhook (h : Host) (channel : option Channel) : M (option Webhook) :=
  try_except
    (c <- attr channel ;;
     webhooks <- lift_outcome (channel_webhooks h c) ;;
     match find (fun w => (webhook_name w =? "Apollo Announcements")%string) webhooks with
     | Some webhook => ret (Some webhook)
     | None =>
         webhook <- lift_outcome (channel_create_webhook h c "Apollo Announcements") ;;
         ret (Some webhook)
     end)
    is_MissingPermissions
    (fun _ => ret None).

(** One block of a delivered text becomes one message. *)
Definition post_chunk (chunk : string) : M Message :=
  m <- fresh_message ;;
  emit (EvPost chunk m) ;;
  ret m.

(** Modelled from the spec: [utils.announce_utils.generate_announcement] is
    not among the sources.  It delivers a text through the Messenger, split
    into the blocks the destination accepts, under a sender identity and a
    mention policy, and gives back the messages it posted; the delivery may
    fail partway.  Which blocks are posted and whether the call fails is the
    host's answer [generate_announcement_result]. *)
Definition generate_announcement (h : Host) (channel : option Channel)
           (text : string) (webhook : option Webhook) (author : option string)
           (avatar : option string) (mentions : option AllowedMentions)
  : M (list Message) :=
  emit (EvGenerate channel text webhook author avatar mentions) ;;
  let answer :=
    generate_announcement_result h channel text webhook author avatar mentions in
  ms <- mapM post_chunk (fst answer) ;;
  match snd answer with
  | None => ret ms
  | Some e => raise e
  end.

(** ** The preview menu *)

Definition tick : string := "✅".
Definition pencil : string := "✏️".
Definition cross : string := "❌".

Definition when (b : bool) (c : M unit) : M unit := if b then c else ret tt.

Definition send_ (ctx : Context) (text : string) : M unit :=
  ctx_send ctx text None ;; ret tt.

Section PreviewEditMenu.
Variable ctx : Context.
Variable messages : list Message.
Variable announcement_content : string.
Variable preview : bool.

(** [interact(msg, reaction)], called on the requester's reaction.  On the
    editing reaction the invoking message goes back to the command
    dispatcher: [EvProcessCommands] records the hand-off, and what the
    command run again does is not part of this trace. *)
Definition interact (msg : Message) (reaction : string) : M bool :=
  message_delete msg ;;
  if ((reaction =? cross) || (reaction =? pencil))%string then
    forM_ messages message_delete ;;
    when (reaction =? cross)%string (send_ ctx "Announcement cancelled") ;;
    when (reaction =? pencil)%string (emit (EvProcessCommands (ctx_message_id ctx))) ;;
    ret false
  else
    when preview
         (send_ ctx ("Preview complete. Send this message with" ++ nl
                     ++ "`!announcement add #announcements 10s " ++ nl
                     ++ announcement_content ++ "`")) ;;
    forM_ messages message_delete ;;
    ret true.

(** [timeout(msg)], called when the wait ends without a reaction. *)
Definition timeout (msg : Message) : M bool :=
  message_delete msg ;;
  send_ ctx ("**Timeout.** Restart posting with: `!announcement preview "
             ++ announcement_content ++ "`") ;;
  forM_ messages message_delete ;;
  ret false.
End PreviewEditMenu.

(** Modelled from the spec: [utils.announce_utils.confirmation] is not among
    the sources.  It posts a prompt message offering the choices, waits for
    a reaction of the requester with one of the recognised choices or for
    the timeout, and calls the matching callback with the prompt; its result
    is the callback's. *)
Definition confirmation (h : Host) (ctx : Context) (title text : string)
           (emojis : list string)
           (on_react : Message -> string -> M bool)
           (on_timeout : Message -> M bool) (seconds : Z) : M bool :=
  msg <- ctx_send ctx (title ++ nl ++ text) None ;;
  match await_reaction h with
  | Some reaction =>
      if existsb (String.eqb reaction) emojis then on_react msg reaction
      else on_timeout msg
  | None => on_timeout msg
  end.

Definition preview_edit_menu (h : Host) (ctx : Context) (messages : list Message)
           (announcement_content : string) (preview : bool) : M bool :=
  confirmation h ctx "Edit Preview"
    ("  " ++ tick ++ " to " ++ (if preview then "finalize" else "schedule announcement")
     ++ nl ++ "  " ++ pencil ++ " to edit (make changes in source first)"
     ++ nl ++ "  " ++ cross ++ " to cancel")
    [tick; pencil; cross]
    (interact ctx messages announcement_content preview)
    (timeout ctx messages announcement_content)
    300.

(** [Announcements.preview_announcement]: posts the preview to the command
    channel; with [menu] the result of the menu, else [None]. *)
Definition preview_announcement (h : Host) (ctx : Context)
           (announcement_content : string) (preview menu : bool) : M (option bool) :=
  let channel := ctx_channel ctx in
  webhook <- get_webhook h (Some channel) ;;
  first <- channel_send channel "**Announcement Preview:**" None ;;
  let author := if ANNOUNCEMENT_IMPERSONATE h then ctx_author ctx else bot_user h in
  generated <- generate_announcement h (Some channel) announcement_content webhook
                 (Some (name author)) (Some (avatar_url author)) None ;;
  last <- channel_send channel "**End of Announcement Preview**" None ;;
  let messages := ((first :: generated) ++ [last])%list in
  if menu then
    result <- preview_edit_menu h ctx messages announcement_content preview ;;
    ret (Some result)
  else ret None.

(** ** Persisting a new announcement *)

Definition is_store_error (e : exn) : bool :=
  match e with
  | ScalarListException | SQLAlchemyError => true
  | _ => false
  end.

Definition add_announcement (h : Host) (ctx : Context) (channel : Channel)
           (trigger_time : Z) (announcement_content : string) : M unit :=
  let display_name := get_name_string ctx in
  author <- (if user_is_irc_bot ctx then ret (1, Some display_name)
             else u <- attr (get_database_user h (ctx_author ctx)) ;;
                  ret (db_id u, None)) ;;
  let (author_id, irc_n) := author : Z * option string in
  let new_announcement :=
    mkAnnouncement 0 author_id announcement_content trigger_time false
                   (channel_id channel) irc_n in
  t <- get_session ;;
  put_session (add_row new_announcement t) ;;
  try_except
    (commit h ;;
     let gran := precisedelta h (ANNOUNCEMENT_SEARCH_INTERVAL h) in
     send_ ctx ("Announcement prepared for <t:" ++ str_of_Z (timestamp_int h trigger_time)
                ++ ":R> (granularity is " ++ gran ++ ")."))
    is_store_error
    (fun e =>
       rollback ;;
       emit (EvLogException e) ;;
       send_ ctx "Something went wrong").

(** ** The scheduler task *)

(** The filter of the scheduler's query:
    [trigger_at <= now, triggered == False]. *)
Definition is_due (now : Z) (a : Announcement) : bool :=
  (trigger_at a <=? now) && negb (triggered a).

(** The block under [# Find author info]: the name and the avatar the
    announcement is posted with. *)
Definition author_info (h : Host) (a : Announcement)
  : M (option string * option string) :=
  if truthy (irc_name a) then ret (irc_name a, None)
  else
    author <- (if ANNOUNCEMENT_IMPERSONATE h then
                 u <- attr (announcement_user h a) ;;
                 ret (get_user h (user_uid u))
               else ret (Some (bot_user h))) ;;
    who <- attr author ;;
    ret (Some (name who), Some (avatar_url who)).

(** The body of [for a in announcements] in [announcement_check]. *)
Definition post_announcement (h : Host) (a : Announcement) : M unit :=
  let channel := get_channel h (playback_channel_id a) in
  webhook <- get_webhook h channel ;;
  author <- author_info h a ;;
  let message := announcement_content a in
  t <- get_session ;;
  put_session (update_row (id a) (set_triggered true) t) ;;
  emit (EvTriggered (id a)) ;;
  commit h ;;
  generate_announcement h channel message webhook (fst author) (snd author)
                        (Some Mentions_all) ;;
  ret tt.

(** One turn of the [while] loop, up to the sleep: [now] is the clock read
    at its start. *)
Definition scheduler_cycle (h : Host) (now : Z) : M unit :=
  t <- get_session ;;
  let announcements := filter (is_due now) t in
  emit (EvDue announcements) ;;
  forM_ announcements (post_announcement h).

(** [announcement_check(bot)]: one entry of [cycles] for every turn the loop
    takes before the bot is closed, with the host and the clock of that
    turn.  An exception in a turn ends the task. *)
Fixpoint announcement_check (cycles : list (Host * Z)) : M unit :=
  match cycles with
  | [] => ret tt
  | (h, now) :: rest => scheduler_cycle h now ;; announcement_check rest
  end.

(** ** The commands of the cog *)

(** [s.split(newline)[0]]. *)
Fixpoint first_line (s : string) : string :=
  match s with
  | EmptyString => EmptyString
  | String c s' => if Ascii.eqb c (ascii_of_nat 10) then EmptyString
                   else String c (first_line s')
  end.

(** The filter of the listing:
    [trigger_at >= now, triggered == False]. *)
Definition is_pending (now : Z) (a : Announcement) : bool :=
  (trigger_at a >=? now) && negb (triggered a).

Module Announcements.

(** [announcement add <channel> <time> <content>]; [now] is
    [datetime.now()] as the handler reads it, [trigger_time] is [None]
    when the converter gave nothing. *)
Definition add (h : Host) (now : Z) (ctx : Context) (channel : Channel)
           (trigger_time : option Z) (announcement_content : string) : M unit :=
  match trigger_time with
  | None => send_ ctx "Incorrect time format, please see help text."
  | Some t =>
      if t <? now then send_ ctx "That time is in the past."
      else
        result <- preview_announcement h ctx announcement_content false true ;;
        match result with
        | Some true => add_announcement h ctx channel t announcement_content
        | _ => ret tt
        end
  end.

(** [announcement preview <content>]. *)
Definition preview (h : Host) (ctx : Context) (announcement_content : string) : M unit :=
  preview_announcement h ctx announcement_content true true ;; ret tt.

(** [announcement cancel <id>]. *)
Definition cancel (h : Host) (ctx : Context) (announcement_id : Z) : M unit :=
  t <- get_session ;;
  match query_first announcement_id t with
  | Some result =>
      put_session (delete_row result t) ;;
      commit h ;;
      send_ ctx "Announcement Deleted"
  | None => send_ ctx "Announcement does not exist"
  end.

(** [announcement check <id>]. *)
Definition check (h : Host) (ctx : Context) (announcement_id : Z) : M unit :=
  t <- get_session ;;
  let result := query_first announcement_id t in
  found <- attr result ;;
  send_ ctx ("**Message Source:**```" ++ nl ++ announcement_content found ++ "```") ;;
  preview_announcement h ctx (announcement_content found) true false ;;
  ret tt.

(** [announcement mention <id> <role...>]. *)
Definition mention (h : Host) (ctx : Context) (announcement_id : Z)
           (roles : list Role) : M unit :=
  t <- get_session ;;
  let announcement := query_first announcement_id t in
  found <- attr announcement ;;
  put_session
    (update_row (id found)
       (set_content (announcement_content found ++ nl
                     ++ String.concat " " (map role_mention roles))) t) ;;
  commit h ;;
  let role_names := String.concat ", " (map role_name roles) in
  send_ ctx ("Pings added for " ++ role_names ++ " to announcement "
             ++ str_of_Z announcement_id ++ ".").

(** The line of the listing for one announcement. *)
Definition list_entry (h : Host) (a : Announcement) : M string :=
  author_name <- (if truthy (irc_name a) then attr (irc_name a)
                  else
                    u <- attr (announcement_user h a) ;;
                    who <- attr (get_user h (user_uid u)) ;;
                    ret (mention_of_user who)) ;;
  let time := trigger_at a in
  let loc := playback_channel_id a in
  let preview := first_line (announcement_content a) in
  ret ("**" ++ str_of_Z (id a) ++ ": in <#" ++ str_of_Z loc ++ "> <t:"
       ++ str_of_Z (timestamp_int h time) ++ ":R> by " ++ author_name ++ "**"
       ++ nl ++ tab ++ preview ++ nl).

(** [announcement list]. *)
Definition list (h : Host) (now : Z) (ctx : Context) : M unit :=
  t <- get_session ;;
  let announcements := filter (is_pending now) t in
  entries <- mapM (list_entry h) announcements ;;
  let msg_text := "**Pending Announcements:**" :: entries in
  forM_ (split_into_messages h msg_text)
        (fun text => ctx_send ctx text (Some Mentions_none) ;; ret tt).

End Announcements.

(** ** Observations on tables and traces *)

(** Every row with primary key [i] has its flag set. *)
Definition marked (i : Z) (t : Table) : Prop :=
  forall a, In a t -> id a = i -> triggered a = true.

Definition is_mark (i : Z) (e : Event) : bool :=
  match e with
  | EvTriggered k => k =? i
  | _ => false
  end.

(** How often the flag of row [i] was assigned in a trace. *)
Definition marks (i : Z) (l : list Event) : nat := length (filter (is_mark i) l).

(** Whether an event is an answer of the scheduler's query with row [i] in it. *)
Definition selects (i : Z) (e : Event) : bool :=
  match e with
  | EvDue result => existsb (fun a => id a =? i) result
  | _ => false
  end.

Definition is_delivery (e : Event) : bool :=
  match e with
  | EvGenerate _ _ _ _ _ _ => true
  | _ => false
  end.

(** The rows the scheduler handed to the delivery, by primary key: in its
    trace every call of the delivery follows the assignment of the flag of
    the row it posts; [last] is the row assigned and not yet delivered. *)
Fixpoint deliveries (last : option Z) (l : list Event) : list Z :=
  match l with
  | [] => []
  | EvTriggered k :: l' => deliveries (Some k) l'
  | EvGenerate _ _ _ _ _ _ :: l' =>
      match last with
      | Some k => k :: deliveries None l'
      | None => deliveries None l'
      end
  | _ :: l' => deliveries last l'
  end.

(** The events a handler added when it took the world from [w] to [w']. *)
Definition new_events (w w' : World) : list Event :=
  skipn (length (log w)) (log w').

(** The messages posted for the blocks of one delivery, from handle [n] on. *)
Fixpoint post_events (n : Message) (chunks : list string) : list Event :=
  match chunks with
  | [] => []
  | c :: cs => EvPost c n :: post_events (S n) cs
  end.

Definition is_prefix (p s : string) : Prop := exists rest, s = p ++ rest.

(** The session once [a.triggered = True] is assigned. *)
Definition marked_table (a : Announcement) (w : World) : Table :=
  update_row (id a) (set_triggered true) (session w).

(** From [w] to [w'] the trace grew by [new], no row appeared or vanished,
    no flag was reset, in the session or in the table, and every row whose
    flag was assigned has it set. *)
Definition scheduler_facts (w w' : World) (new : list Event) : Prop :=
  log w' = (log w ++ new)%list
  /\ map id (session w') = map id (session w)
  /\ (forall j, marked j (session w) -> marked j (session w'))
  /\ (forall j, marked j (session w) -> marked j (db w) -> marked j (db w'))
  /\ (forall j, (1 <= marks j new)%nat -> marked j (session w')).

(** The messages of the listing, from handle [n] on. *)
Fixpoint listing_events (chan : Z) (n : Message) (texts : list string) : list Event :=
  match texts with
  | [] => []
  | text :: rest =>
      EvSend chan text (Some Mentions_none) n :: listing_events chan (S n) rest
  end.


(** Whether an event is the sending of [text]. *)
Definition sends (text : string) (e : Event) : bool :=
  match e with
  | EvSend _ t _ _ => (t =? text)%string
  | _ => false
  end.

(** The hint the menu sends when a preview is confirmed. *)
Definition preview_hint (announcement_content : string) : string :=
  "Preview complete. Send this message with" ++ nl
  ++ "`!announcement add #announcements 10s " ++ nl
  ++ announcement_content ++ "`".

(** The separator [join] puts next to a list of tokens when another token
    follows or precedes it. *)
Definition gap (tokens : list string) : string :=
  match tokens with
  | [] => ""
  | _ :: _ => " "
  end.

(** A handler that leaves the store as it found it, the table and the
    session's view of it, whatever its outcome. *)
Definition keeps_store {A} (c : M A) : Prop :=
  forall w, db (snd (c w)) = db w /\ session (snd (c w)) = session w.

(** A table differs from another by flags that were raised only: row by
    row, the same row or the same row with [triggered] set. *)
Definition flags_raised (t t' : Table) : Prop :=
  Forall2 (fun a b => b = a \/ b = set_triggered true a) t t'.

Definition is_delete (e : Event) : bool :=
  match e with
  | EvDelete _ => true
  | _ => false
  end.

(** Whether an event is harmless to mention: it is no delivery, or a
    delivery with the given mention policy. *)
Definition delivers_with (policy : option AllowedMentions) (e : Event) : Prop :=
  match e with
  | EvGenerate _ _ _ _ _ m => m = policy
  | _ => True
  end.

(** Whether a text has a line break in it. *)
Fixpoint has_newline (s : string) : bool :=
  match s with
  | EmptyString => false
  | String c s' => Ascii.eqb c (ascii_of_nat 10) || has_newline s'
  end.

(** The messages of a preview, from handle [n] on: the header, the posted
    blocks and the footer. *)
Definition preview_messages (n : Message) (blocks : list string) : list Message :=
  ((n :: seq (S n) (length blocks)) ++ [(length blocks + S n)%nat])%list.

(** A handler all of whose events satisfy [P], whatever its outcome. *)
Definition emits (P : Event -> Prop) {A} (c : M A) : Prop :=
  forall w, exists l, log (snd (c w)) = (log w ++ l)%list /\ Forall P l.





(** The entry of the listing for a row: its key, channel, time and
    author, namely the irc name when that is not empty and else the mention
    of the author's account, then the first line of the content. *)
Definition listed_as (h : Host) (a : Announcement) (entry : string) : Prop :=
  exists author,
    ((truthy (irc_name a) = true /\ irc_name a = Some author)
     \/ (truthy (irc_name a) = false
         /\ exists u who,
              announcement_user h a = Some u
              /\ get_user h (user_uid u) = Some who
              /\ author = mention_of_user who))
    /\ entry =
       ("**" ++ str_of_Z (id a) ++ ": in <#" ++ str_of_Z (playback_channel_id a)
        ++ "> <t:" ++ str_of_Z (timestamp_int h (trigger_at a)) ++ ":R> by "
        ++ author ++ "**" ++ nl ++ tab ++ first_line (announcement_content a) ++ nl).

(** A row without irc name whose author the bot cannot find. *)
Definition unlisted (h : Host) (a : Announcement) : Prop :=
  truthy (irc_name a) = false
  /\ (announcement_user h a = None
      \/ exists u, announcement_user h a = Some u /\ get_user h (user_uid u) = None).

(** ** A small installation, to run the handlers on *)

Module Demo.

Definition general : Channel := mkChannel 10.
Definition apollo : User := mkUser "Apollo" "apollo.png" "<@1>".
Definition alice : User := mkUser "alice" "alice.png" "<@42>".
Definition hook : Webhook := mkWebhook "Apollo Announcements".

(** A host that knows channel 10 and user 42, with the answers of the
    webhook listing, of the store, of the delivery and of the requester
    left open. *)
Definition host_with (hooks : Outcome (list Webhook)) (store : option exn)
           (delivery : option exn) (reaction : option string) : Host :=
  mkHost (fun c => if c =? 10 then Some general else None)
         (fun _ => hooks)
         (fun _ n => Return (mkWebhook n))
         (fun uid => if uid =? 42 then Some alice else None)
         apollo
         (fun a => if user_id a =? 7 then Some (mkDbUser 7 42) else None)
         (fun _ => Some (mkDbUser 7 42))
         true 60 (fun _ => "1 minute")
         (fun t => Z.quot t 1000000)
         (fun _ text _ _ _ _ => ([text], delivery))
         (fun _ => store)
         (fun l => l)
         reaction.

Definition host : Host := host_with (Return [hook]) None None (Some tick).

(** The delivery fails after the first block. *)
Definition host_failing_delivery : Host :=
  host_with (Return [hook]) None (Some (OtherException "HTTPException")) (Some tick).

Definition ctx : Context := mkContext general alice 900 "alice" false.
Definition bridge_ctx : Context := mkContext general apollo 901 "irc_guest" true.

(** A bridge message whose display name is empty. *)
Definition nameless_bridge_ctx : Context := mkContext general apollo 902 "" true.

(** A host whose user table has a database user 1, the account of alice. *)
Definition host_with_user_one : Host :=
  mkHost (fun c => if c =? 10 then Some general else None)
         (fun _ => Return [hook])
         (fun _ n => Return (mkWebhook n))
         (fun uid => if uid =? 42 then Some alice else None)
         apollo
         (fun a => if user_id a =? 1 then Some (mkDbUser 1 42) else None)
         (fun _ => Some (mkDbUser 1 42))
         true 60 (fun _ => "1 minute")
         (fun t => Z.quot t 1000000)
         (fun _ text _ _ _ _ => ([text], None))
         (fun _ => None)
         (fun l => l)
         (Some tick).

Definition hello : Announcement := mkAnnouncement 1 7 "Hello" 100 false 10 None.
Definition later : Announcement := mkAnnouncement 2 7 "Later" 500 false 10 None.
Definition lost : Announcement := mkAnnouncement 3 7 "Lost" 100 false 11 None.
Definition done : Announcement := mkAnnouncement 4 7 "Done" 50 true 10 None.

Definition world_of (t : Table) : World := mkWorld t t [] 0%nat.

Definition world : World := world_of [hello; later].

End Demo.

(** ** Basic facts *)

Lemma new_events_app w w' l :
  log w' = (log w ++ l)%list -> new_events w w' = l.
Proof.
  unfold new_events. intros ->.
  rewrite skipn_app, skipn_all, Nat.sub_diag. reflexivity.
Qed.

Lemma mapM_post_chunk chunks : forall w,
  mapM post_chunk chunks w =
  (Return (seq (next_msg w) (length chunks)),
   mkWorld (db w) (session w) (log w ++ post_events (next_msg w) chunks)
           (length chunks + next_msg w)%nat).
Proof.
  induction chunks as [|c cs IH]; intros [d s l n]; cbn.
  - unfold ret. now rewrite app_nil_r.
  - unfold bind at 1. unfold post_chunk at 1, bind, fresh_message, emit, ret. cbn.
    rewrite IH. cbn. rewrite <- app_assoc. cbn.
    now rewrite Nat.add_succ_r.
Qed.

Lemma generate_announcement_run h channel text hook author avatar mentions w :
  let answer := generate_announcement_result h channel text hook author avatar mentions in
  generate_announcement h channel text hook author avatar mentions w =
  (match snd answer with
   | None => Return (seq (next_msg w) (length (fst answer)))
   | Some e => Raise e
   end,
   mkWorld (db w) (session w)
           (log w ++ EvGenerate channel text hook author avatar mentions
                  :: post_events (next_msg w) (fst answer))
           (length (fst answer) + next_msg w)%nat).
Proof.
  intros answer. unfold generate_announcement. fold answer.
  unfold bind at 1. unfold emit at 1.
  unfold bind. rewrite mapM_post_chunk. cbn.
  rewrite <- app_assoc. cbn.
  destruct (snd answer); reflexivity.
Qed.

Lemma get_webhook_pure h channel w :
  exists out, get_webhook h channel w = (out, w).
Proof.
  unfold get_webhook, try_except, bind, attr, lift_outcome, ret, raise.
  destruct channel as [c|]; cbn; [|eauto].
  destruct (channel_webhooks h c) as [hooks|e]; cbn.
  - destruct (find _ hooks); cbn; [eauto|].
    destruct (channel_create_webhook h c _) as [k|e]; cbn; [eauto|].
    destruct e; cbn; eauto.
  - destruct e; cbn; eauto.
Qed.

Lemma author_info_pure h a w :
  exists out, author_info h a w = (out, w).
Proof.
  unfold author_info, bind, attr, ret, raise.
  destruct (truthy (irc_name a)); [eauto|].
  destruct (ANNOUNCEMENT_IMPERSONATE h); cbn; [|eauto].
  destruct (announcement_user h a) as [u|]; cbn; [|eauto].
  destruct (get_user h (user_uid u)); cbn; eauto.
Qed.

(** The three ways through the body of the scheduler's loop: an exception
    before the flag is assigned, a refused commit, or a commit followed by
    the call of the delivery. *)
Lemma post_announcement_cases h a w :
  (exists e, post_announcement h a w = (Raise e, w))
  \/ (exists e,
        commit_result h (marked_table a w) = Some e /\
        post_announcement h a w =
        (Raise e, mkWorld (db w) (marked_table a w)
                          (log w ++ [EvTriggered (id a)]) (next_msg w)))
  \/ (exists hook author,
        let answer :=
          generate_announcement_result h (get_channel h (playback_channel_id a))
            (announcement_content a) hook (fst author) (snd author)
            (Some Mentions_all) in
        get_webhook h (get_channel h (playback_channel_id a)) w = (Return hook, w) /\
        author_info h a w = (Return author, w) /\
        commit_result h (marked_table a w) = None /\
        post_announcement h a w =
        (match snd answer with None => Return tt | Some e => Raise e end,
         mkWorld (marked_table a w) (marked_table a w)
           (log w ++ EvTriggered (id a) :: EvCommit (marked_table a w)
              :: EvGenerate (get_channel h (playback_channel_id a))
                   (announcement_content a) hook (fst author) (snd author)
                   (Some Mentions_all)
              :: post_events (next_msg w) (fst answer))
           (length (fst answer) + next_msg w)%nat)).
Proof.
  destruct (post_announcement h a w) as [out w'] eqn:E.
  unfold post_announcement in E.
  destruct (get_webhook_pure h (get_channel h (playback_channel_id a)) w) as [o1 E1].
  unfold bind at 1 in E. rewrite E1 in E.
  destruct o1 as [hook|e]; [|left; exists e; congruence].
  destruct (author_info_pure h a w) as [o2 E2].
  unfold bind at 1 in E. rewrite E2 in E.
  destruct o2 as [author|e]; [|left; exists e; congruence].
  right.
  unfold bind at 1 in E. unfold get_session at 1 in E.
  unfold bind at 1 in E. unfold put_session at 1 in E.
  unfold bind at 1 in E. unfold emit at 1 in E.
  unfold bind at 1 in E. unfold commit at 1 in E. cbn [db session log next_msg] in E.
  fold (marked_table a w) in E.
  destruct (commit_result h (marked_table a w)) as [e|] eqn:EC.
  - left. exists e. split; [reflexivity | congruence].
  - right. exists hook, author. cbn zeta.
    split; [exact E1|]. split; [exact E2|]. split; [reflexivity|].
    unfold bind at 1 in E. rewrite generate_announcement_run in E.
    cbn [db session log next_msg] in E.
    rewrite <- !app_assoc in E. cbn [app] in E.
    rewrite <- E.
    destruct (snd (generate_announcement_result _ _ _ _ _ _ _)); reflexivity.
Qed.

(** ** Tables under the scheduler's assignment *)

Lemma update_row_ids i b t :
  map id (update_row i (set_triggered b) t) = map id t.
Proof.
  unfold update_row. rewrite map_map. apply map_ext.
  intros a. destruct (id a =? i); reflexivity.
Qed.

Lemma marked_update_self i t : marked i (update_row i (set_triggered true) t).
Proof.
  intros a Ha Hi. unfold update_row in Ha. apply in_map_iff in Ha.
  destruct Ha as [b [Hb _]].
  destruct (id b =? i) eqn:E; subst a; [reflexivity|].
  apply Z.eqb_neq in E. contradiction.
Qed.

Lemma marked_update_other i j t :
  marked j t -> marked j (update_row i (set_triggered true) t).
Proof.
  intros H a Ha Hj. unfold update_row in Ha. apply in_map_iff in Ha.
  destruct Ha as [b [Hb Hin]].
  destruct (id b =? i); subst a; [reflexivity|].
  now apply H.
Qed.

Lemma marks_app i l1 l2 : marks i (l1 ++ l2) = (marks i l1 + marks i l2)%nat.
Proof. unfold marks. now rewrite filter_app, length_app. Qed.

Lemma marks_cons i e l :
  marks i (e :: l) = ((if is_mark i e then 1 else 0) + marks i l)%nat.
Proof. unfold marks. cbn. destruct (is_mark i e); reflexivity. Qed.

Lemma marks_post_events i chunks : forall n, marks i (post_events n chunks) = 0%nat.
Proof. induction chunks as [|c cs IH]; intros n; [reflexivity | apply IH]. Qed.

Lemma selects_post_events i chunks : forall n,
  existsb (selects i) (post_events n chunks) = false.
Proof. induction chunks as [|c cs IH]; intros n; [reflexivity | apply IH]. Qed.

Lemma due_not_marked now t i :
  marked i t -> existsb (fun a => id a =? i) (filter (is_due now) t) = false.
Proof.
  intros H. apply not_true_is_false. intros E.
  apply existsb_exists in E. destruct E as [a [Ha Hi]].
  apply filter_In in Ha. destruct Ha as [Hin Hdue].
  apply Z.eqb_eq in Hi. unfold is_due in Hdue.
  apply andb_true_iff in Hdue. destruct Hdue as [_ Hflag].
  rewrite (H a Hin Hi) in Hflag. discriminate.
Qed.

Lemma count_occ_ids_filter (f : Announcement -> bool) t i :
  (count_occ Z.eq_dec (map id (filter f t)) i <= count_occ Z.eq_dec (map id t) i)%nat.
Proof.
  induction t as [|a t IH]; cbn; [lia|].
  destruct (f a); cbn; destruct (Z.eq_dec (id a) i); lia.
Qed.

Lemma count_occ_existsb t i :
  existsb (fun a => id a =? i) t = false -> count_occ Z.eq_dec (map id t) i = 0%nat.
Proof.
  induction t as [|a t IH]; cbn; [reflexivity|].
  intros H. apply orb_false_iff in H. destruct H as [Ha Ht].
  apply Z.eqb_neq in Ha. destruct (Z.eq_dec (id a) i); [contradiction | now apply IH].
Qed.

(** ** What any activity of the scheduler preserves *)

Lemma scheduler_facts_refl w : scheduler_facts w w [].
Proof.
  unfold scheduler_facts. rewrite app_nil_r.
  repeat split; auto. cbn. lia.
Qed.

Lemma scheduler_facts_trans w1 w2 w3 l1 l2 :
  scheduler_facts w1 w2 l1 -> scheduler_facts w2 w3 l2 ->
  scheduler_facts w1 w3 (l1 ++ l2).
Proof.
  intros (L1 & I1 & S1 & D1 & M1) (L2 & I2 & S2 & D2 & M2).
  unfold scheduler_facts. repeat split.
  - rewrite L2, L1. now rewrite app_assoc.
  - congruence.
  - auto.
  - auto.
  - intros j Hj. rewrite marks_app in Hj.
    destruct (marks j l2) eqn:E2.
    + apply S2, M1. lia.
    + apply M2. lia.
Qed.

Lemma post_announcement_facts h a w out w' :
  post_announcement h a w = (out, w') ->
  exists new,
    scheduler_facts w w' new
    /\ (forall j, (marks j new <= if (id a =? j)%Z then 1 else 0)%nat)
    /\ (forall j, existsb (selects j) new = false).
Proof.
  intros E.
  destruct (post_announcement_cases h a w)
    as [[e E1] | [[e [_ E1]] | [hook [author (_ & _ & _ & E1)]]]];
    rewrite E1 in E; inversion E; subst; clear E E1.
  - exists []. split; [apply scheduler_facts_refl|]. split; intros j; cbn; [|reflexivity].
    destruct (id a =? j); lia.
  - exists [EvTriggered (id a)]. unfold scheduler_facts, marked_table. cbn [db session log].
    split; [|split].
    + repeat split; auto.
      * apply update_row_ids.
      * intros j Hj. now apply marked_update_other.
      * intros j Hj. rewrite marks_cons in Hj. cbn in Hj.
        destruct (id a =? j) eqn:Ej; cbn in Hj; [|lia].
        apply Z.eqb_eq in Ej. subst j. apply marked_update_self.
    + intros j. rewrite marks_cons. cbn. destruct (id a =? j); cbn; lia.
    + reflexivity.
  - eexists. unfold scheduler_facts, marked_table. cbn [db session log].
    split; [|split].
    + split; [reflexivity|]. split; [apply update_row_ids|].
      split; [intros j Hj; now apply marked_update_other|].
      split; [intros j Hj _; now apply marked_update_other|].
      intros j Hj. rewrite !marks_cons, marks_post_events in Hj. cbn [is_mark] in Hj.
      destruct (id a =? j) eqn:Ej; [|cbn in Hj; lia].
      apply Z.eqb_eq in Ej. subst j. apply marked_update_self.
    + intros j. rewrite !marks_cons, marks_post_events. cbn [is_mark].
      destruct (id a =? j); cbn; lia.
    + intros j. cbn [existsb selects orb]. apply selects_post_events.
Qed.

Lemma post_loop_facts h l : forall w out w',
  forM_ l (post_announcement h) w = (out, w') ->
  exists new,
    scheduler_facts w w' new
    /\ (forall j, (marks j new <= count_occ Z.eq_dec (map id l) j)%nat)
    /\ (forall j, existsb (selects j) new = false).
Proof.
  induction l as [|a l IH]; intros w out w' E; cbn [forM_] in E.
  - inversion E; subst. exists []. split; [apply scheduler_facts_refl|].
    split; intros j; cbn; [lia | reflexivity].
  - unfold bind in E.
    destruct (post_announcement h a w) as [o1 w1] eqn:E1.
    destruct (post_announcement_facts h a w o1 w1 E1) as (new1 & F1 & M1 & S1).
    destruct o1 as [[]|e].
    + destruct (IH w1 out w' E) as (new2 & F2 & M2 & S2).
      exists (new1 ++ new2)%list. split; [eapply scheduler_facts_trans; eauto|].
      split; intros j.
      * rewrite marks_app. specialize (M1 j). specialize (M2 j). cbn [map count_occ].
        destruct (Z.eq_dec (id a) j) as [Y|N].
        -- subst j. rewrite Z.eqb_refl in M1. lia.
        -- apply Z.eqb_neq in N. rewrite N in M1. lia.
      * rewrite existsb_app, S1, S2. reflexivity.
    + inversion E; subst. exists new1. split; [assumption|].
      split; [|assumption]. intros j. specialize (M1 j). cbn [map count_occ].
      destruct (Z.eq_dec (id a) j) as [Y|N].
      * subst j. rewrite Z.eqb_refl in M1. lia.
      * apply Z.eqb_neq in N. rewrite N in M1. lia.
Qed.

(** One turn of the loop: rows whose flag is set are neither in the
    query's answer nor assigned, and with unique primary keys a row is
    assigned at most once. *)
Lemma scheduler_cycle_facts h now w out w' :
  scheduler_cycle h now w = (out, w') ->
  exists new,
    scheduler_facts w w' new
    /\ (forall j, marked j (session w) ->
                  marks j new = 0%nat /\ existsb (selects j) new = false)
    /\ (forall j, NoDup (map id (session w)) -> (marks j new <= 1)%nat).
Proof.
  unfold scheduler_cycle. intros E.
  unfold bind at 1 in E. unfold get_session at 1 in E.
  unfold bind at 1 in E. unfold emit at 1 in E.
  set (due := filter (is_due now) (session w)) in *.
  set (w0 := mkWorld (db w) (session w) (log w ++ [EvDue due]) (next_msg w)) in *.
  destruct (post_loop_facts h due w0 out w' E) as (new & (L & I & S & D & M) & C & Q).
  exists (EvDue due :: new). split; [|split].
  - unfold scheduler_facts. subst w0. cbn [db session log] in *.
    split; [rewrite L, <- app_assoc; reflexivity|].
    repeat split; auto.
  - intros j Hj. rewrite marks_cons. cbn [is_mark existsb selects].
    pose proof (due_not_marked now (session w) j Hj) as Hd. fold due in Hd.
    rewrite Hd, Q. split; [|reflexivity].
    specialize (C j). rewrite (count_occ_existsb due j Hd) in C. cbn. lia.
  - intros j Hj. rewrite marks_cons. cbn [is_mark].
    specialize (C j).
    pose proof (count_occ_ids_filter (is_due now) (session w) j) as Hf. fold due in Hf.
    pose proof (proj1 (NoDup_count_occ Z.eq_dec (map id (session w))) Hj j). cbn. lia.
Qed.

(** Any number of turns of the loop. *)
Lemma announcement_check_facts cycles : forall w out w',
  announcement_check cycles w = (out, w') ->
  exists new,
    scheduler_facts w w' new
    /\ (forall j, marked j (session w) ->
                  marks j new = 0%nat /\ existsb (selects j) new = false)
    /\ (forall j, NoDup (map id (session w)) -> (marks j new <= 1)%nat).
Proof.
  induction cycles as [|[h now] cycles IH]; intros w out w' E; cbn [announcement_check] in E.
  - inversion E; subst. exists []. split; [apply scheduler_facts_refl|].
    split; intros j _; cbn; [split; reflexivity | lia].
  - unfold bind in E.
    destruct (scheduler_cycle h now w) as [o1 w1] eqn:E1.
    destruct (scheduler_cycle_facts h now w o1 w1 E1) as (new1 & F1 & Z1 & U1).
    destruct o1 as [[]|e].
    + destruct (IH w1 out w' E) as (new2 & F2 & Z2 & U2).
      exists (new1 ++ new2)%list. split; [eapply scheduler_facts_trans; eauto|].
      pose proof F1 as (L1 & I1 & S1 & D1 & M1).
      split; intros j Hj.
      * destruct (Z1 j Hj) as [A1 B1]. destruct (Z2 j (S1 j Hj)) as [A2 B2].
        rewrite marks_app, existsb_app, A1, A2, B1, B2. split; reflexivity.
      * rewrite marks_app. specialize (U1 j Hj).
        assert (Hj1 : NoDup (map id (session w1))) by (rewrite I1; exact Hj).
        specialize (U2 j Hj1).
        destruct (marks j new1) as [|k] eqn:K; [lia|].
        assert (Hm : marked j (session w1)) by (apply M1; lia).
        destruct (Z2 j Hm) as [A2 _]. lia.
    + inversion E; subst. exists new1. auto.
Qed.

(** A row is delivered no more often than its flag is assigned. *)
Lemma deliveries_bound i l : forall last,
  (count_occ Z.eq_dec (deliveries last l) i
   <= marks i l + match last with
                  | Some k => if (k =? i)%Z then 1 else 0
                  | None => 0
                  end)%nat.
Proof.
  induction l as [|e l IH]; intros last; [cbn; lia|].
  rewrite marks_cons.
  destruct e; cbn [deliveries is_mark];
    try (specialize (IH last); lia).
  - specialize (IH (Some key)). cbn in IH.
    destruct (key =? i); destruct last as [k|]; try destruct (k =? i); lia.
  - destruct last as [k|]; [|specialize (IH None); cbn in IH; lia].
    cbn [count_occ]. specialize (IH None). cbn in IH.
    destruct (Z.eq_dec k i) as [Y|N].
    + subst k. rewrite Z.eqb_refl. lia.
    + apply Z.eqb_neq in N. rewrite N. lia.
Qed.

(** ** The listing reads pending rows only *)

Lemma list_entry_pure h a : exists out, forall w, Announcements.list_entry h a w = (out, w).
Proof.
  unfold Announcements.list_entry, bind, attr, ret, raise.
  destruct (truthy (irc_name a)).
  - destruct (irc_name a); eauto.
  - destruct (announcement_user h a) as [u|]; [|eauto].
    destruct (get_user h (user_uid u)); eauto.
Qed.

Lemma list_entries_pure h l :
  exists out, forall w, mapM (Announcements.list_entry h) l w = (out, w).
Proof.
  induction l as [|a l [outs IH]]; cbn [mapM]; [unfold ret; eauto|].
  destruct (list_entry_pure h a) as [out E].
  unfold bind. destruct out as [line|e].
  - destruct outs as [lines|e].
    + exists (Return (line :: lines)). intros w. now rewrite E, IH.
    + exists (Raise e). intros w. now rewrite E, IH.
  - exists (Raise e). intros w. now rewrite E.
Qed.

Lemma listing_run ctx texts : forall w,
  forM_ texts (fun text => ctx_send ctx text (Some Mentions_none) ;; ret tt) w =
  (Return tt,
   mkWorld (db w) (session w)
           (log w ++ listing_events (channel_id (ctx_channel ctx)) (next_msg w) texts)
           (length texts + next_msg w)%nat).
Proof.
  induction texts as [|text texts IH]; intros [d s l n]; cbn [forM_].
  - unfold ret. cbn. now rewrite app_nil_r.
  - unfold bind at 1. unfold bind at 1.
    unfold ctx_send, channel_send, bind, fresh_message, emit, ret. cbn.
    fold (@ret unit tt).
    change (fun text0 : string =>
              fun w : World =>
                _) with (fun text0 => (ctx_send ctx text0 (Some Mentions_none) ;; ret tt)) in IH.
    rewrite <- Nat.add_succ_r.
    specialize (IH (mkWorld d s (l ++ [EvSend (channel_id (ctx_channel ctx)) text
                                         (Some Mentions_none) n]) (S n))).
    cbn in IH. rewrite <- app_assoc in IH. cbn in IH. exact IH.
Qed.


Lemma list_run h now ctx w :
  exists out,
    (forall w0, mapM (Announcements.list_entry h) (filter (is_pending now) (session w)) w0
                = (out, w0))
    /\ Announcements.list h now ctx w =
       match out with
       | Return entries =>
           let texts := split_into_messages h ("**Pending Announcements:**" :: entries) in
           (Return tt,
            mkWorld (db w) (session w)
                    (log w ++ listing_events (channel_id (ctx_channel ctx)) (next_msg w) texts)
                    (length texts + next_msg w)%nat)
       | Raise e => (Raise e, w)
       end.
Proof.
  destruct (list_entries_pure h (filter (is_pending now) (session w))) as [out E].
  exists out. split; [exact E|].
  unfold Announcements.list. cbv zeta.
  unfold bind at 1. unfold get_session at 1.
  unfold bind at 1. rewrite E.
  destruct out as [entries|e]; [apply listing_run | reflexivity].
Qed.


Lemma scheduler_cycle_unfold h now w :
  scheduler_cycle h now w =
  forM_ (filter (is_due now) (session w)) (post_announcement h)
        (mkWorld (db w) (session w)
                 (log w ++ [EvDue (filter (is_due now) (session w))]) (next_msg w)).
Proof. reflexivity. Qed.

(** ** Deliveries follow assignments *)











(** * The claims *)






(** C3, as stated, fails: a trigger time equal to the clock is not rejected.
    With the requester confirming the preview, [add] at [trigger_time = now]
    sends no validation message and persists a new row. *)
Lemma add_at_now_persists :
  let r := Announcements.add Demo.host 100 Demo.ctx Demo.general
             (Some 100) "Hi" Demo.world in
  fst r = Return tt
  /\ existsb (sends "That time is in the past.") (log (snd r)) = false
  /\ db (snd r)
     = (db Demo.world ++ [mkAnnouncement 3 7 "Hi" 100 false 10 None])%list.
Proof. vm_compute. repeat split. Qed.

(** C3, amended. A call of [add] with a trigger time strictly before the
    clock ends with the message that the time is in the past and nothing
    else: no row is added, neither to the session nor to the store.  A
    trigger time equal to the clock passes this validation and goes on to
    the preview. *)
Theorem add_in_the_past_is_rejected (h : Host) (now : Z) (ctx : Context)
        (channel : Channel) (t : Z) (content : string) (w : World) :
  t < now ->
  Announcements.add h now ctx channel (Some t) content w =
  (Return tt,
   mkWorld (db w) (session w)
           (log w ++ [EvSend (channel_id (ctx_channel ctx)) "That time is in the past."
                             None (next_msg w)])
           (S (next_msg w)))
  /\ Announcements.add h now ctx channel (Some now) content w =
     (result <- preview_announcement h ctx content false true ;;
      match result with
      | Some true => add_announcement h ctx channel now content
      | _ => ret tt
      end) w.
Proof.
  intros Hlt. unfold Announcements.add. split.
  - apply Z.ltb_lt in Hlt. rewrite Hlt. reflexivity.
  - rewrite Z.ltb_irrefl. reflexivity.
Qed.

Lemma add_in_the_past_is_rejected_witness :
  db (snd (Announcements.add Demo.host 100 Demo.ctx Demo.general
             (Some 99) "Hi" Demo.world)) = db Demo.world.
Proof.
  assert (H : 99 < 100) by lia.
  destruct (add_in_the_past_is_rejected Demo.host 100 Demo.ctx Demo.general
              99 "Hi" Demo.world H) as [E _].
  rewrite E. reflexivity.
Defined.

(** ** Lookup by primary key *)

Lemma query_first_id i t a : query_first i t = Some a -> id a = i.
Proof.
  unfold query_first. intros H. apply find_some in H.
  now apply Z.eqb_eq.
Qed.

Lemma query_first_deleted i t a :
  id a = i -> query_first i (delete_row a t) = None.
Proof.
  intros <-. unfold query_first, delete_row.
  induction t as [|b t IH]; cbn [filter find]; [reflexivity|].
  destruct (id b =? id a) eqn:E; cbn [negb find]; [exact IH|].
  rewrite E. exact IH.
Qed.

Lemma query_first_updated i t a f :
  (forall b, id (f b) = id b) ->
  query_first i t = Some a ->
  query_first i (update_row (id a) f t) = Some (f a).
Proof.
  intros Hf H. pose proof (query_first_id i t a H) as Hi. subst i.
  unfold query_first, update_row in *.
  induction t as [|b t IH]; cbn in *; [discriminate|].
  destruct (id b =? id a) eqn:E.
  - inversion H; subst b. rewrite Hf, Z.eqb_refl. reflexivity.
  - rewrite E. apply IH, H.
Qed.

(** C4, as stated, fails: [cancel] of an announcement whose flag is set
    deletes it from the store. *)
Lemma cancel_deletes_a_triggered_row :
  let w := Demo.world_of [Demo.done] in
  let r := Announcements.cancel Demo.host Demo.ctx 4 w in
  triggered Demo.done = true
  /\ query_first 4 (db w) = Some Demo.done
  /\ fst r = Return tt
  /\ db (snd r) = []
  /\ existsb (sends "Announcement Deleted") (log (snd r)) = true.
Proof. vm_compute. repeat split. Qed.

(** C4, amended. [cancel] of a stored announcement deletes the row with
    that primary key whether its flag is set or not, once the store accepts
    the commit: the row is gone from the session and from the store, and the
    requester is told so. *)
Theorem cancel_deletes_any_stored_row (h : Host) (ctx : Context) (i : Z)
        (w : World) (a : Announcement) :
  query_first i (session w) = Some a ->
  commit_result h (delete_row a (session w)) = None ->
  Announcements.cancel h ctx i w =
  (Return tt,
   mkWorld (delete_row a (session w)) (delete_row a (session w))
           (log w ++ [EvCommit (delete_row a (session w));
                      EvSend (channel_id (ctx_channel ctx)) "Announcement Deleted"
                             None (next_msg w)])
           (S (next_msg w)))
  /\ query_first i (delete_row a (session w)) = None.
Proof.
  intros Hq Hc. split.
  - unfold Announcements.cancel, bind, get_session, put_session, commit, send_,
      ctx_send, channel_send, bind, fresh_message, emit, ret.
    rewrite Hq. cbn. rewrite Hc. cbn. now rewrite <- app_assoc.
  - apply query_first_deleted. eapply query_first_id; eauto.
Qed.

Lemma cancel_deletes_any_stored_row_witness :
  query_first 1 (db (snd (Announcements.cancel Demo.host Demo.ctx 1 Demo.world)))
  = None.
Proof.
  assert (Hq : query_first 1 (session Demo.world) = Some Demo.hello) by reflexivity.
  assert (Hc : commit_result Demo.host (delete_row Demo.hello (session Demo.world))
               = None) by reflexivity.
  destruct (cancel_deletes_any_stored_row Demo.host Demo.ctx 1 Demo.world
              Demo.hello Hq Hc) as [E N].
  rewrite E. exact N.
Defined.

(** C5. For a primary key that no row has, [cancel] answers that the
    announcement does not exist and changes nothing else, but [check] and
    [mention] read an attribute of the [None] the query gave: they raise
    [AttributeError], and the requester gets no message.  The store is
    unchanged in all three. *)
Theorem unknown_id_check_and_mention_raise (h : Host) (ctx : Context) (i : Z)
        (roles : list Role) (w : World) :
  query_first i (session w) = None ->
  Announcements.cancel h ctx i w =
  (Return tt,
   mkWorld (db w) (session w)
           (log w ++ [EvSend (channel_id (ctx_channel ctx)) "Announcement does not exist"
                             None (next_msg w)])
           (S (next_msg w)))
  /\ Announcements.check h ctx i w = (Raise AttributeError, w)
  /\ Announcements.mention h ctx i roles w = (Raise AttributeError, w).
Proof.
  intros Hq.
  unfold Announcements.cancel, Announcements.check, Announcements.mention,
    bind, get_session. rewrite Hq. repeat split.
Qed.

Lemma unknown_id_check_and_mention_raise_witness :
  Announcements.check Demo.host Demo.ctx 9 Demo.world
  = (Raise AttributeError, Demo.world)
  /\ Announcements.mention Demo.host Demo.ctx 9 [] Demo.world
     = (Raise AttributeError, Demo.world).
Proof.
  assert (Hq : query_first 9 (session Demo.world) = None) by reflexivity.
  exact (proj2 (unknown_id_check_and_mention_raise Demo.host Demo.ctx 9 []
                  Demo.world Hq)).
Defined.

(** ** The preview menu on a confirmation *)

Lemma delete_all_run messages : forall w,
  forM_ messages message_delete w =
  (Return tt,
   mkWorld (db w) (session w) (log w ++ map EvDelete messages) (next_msg w)).
Proof.
  induction messages as [|m ms IH]; intros [d s l n]; cbn [forM_ map].
  - unfold ret. cbn. now rewrite app_nil_r.
  - unfold bind, message_delete at 1, emit. cbn.
    rewrite IH. cbn. now rewrite <- app_assoc.
Qed.

(** C7, as stated, fails: on the confirming reaction the menu deletes the
    preview messages too, not only the prompt.  Here the prompt is message
    9 and the preview consists of messages 5 and 6. *)
Lemma confirm_deletes_the_preview :
  let r := interact Demo.ctx [5; 6]%nat "Hi" false 9%nat tick Demo.world in
  fst r = Return true
  /\ log (snd r) = [EvDelete 9%nat; EvDelete 5%nat; EvDelete 6%nat].
Proof. vm_compute. split; reflexivity. Qed.

(** C7, amended. On the confirming reaction, [interact] deletes the prompt,
    sends the hint when the menu belongs to a preview, then deletes every
    preview message, and returns [True]; the store is not touched. *)
Theorem confirm_deletes_prompt_and_preview (ctx : Context) (messages : list Message)
        (content : string) (preview : bool) (msg : Message) (w : World) :
  interact ctx messages content preview msg tick w =
  (Return true,
   mkWorld (db w) (session w)
     (log w ++ EvDelete msg
        :: (if preview
            then [EvSend (channel_id (ctx_channel ctx)) (preview_hint content)
                         None (next_msg w)]
            else [])
        ++ map EvDelete messages)
     (if preview then S (next_msg w) else next_msg w)).
Proof.
  unfold interact.
  change ((tick =? cross)%string || (tick =? pencil)%string) with false.
  cbv iota.
  unfold bind at 1. unfold message_delete at 1, emit at 1.
  unfold bind at 1.
  destruct preview; unfold when, send_, ctx_send, channel_send.
  - unfold bind at 1 2 3 4. unfold fresh_message, emit, ret at 1 2. cbn [db session log next_msg].
    unfold bind. rewrite delete_all_run. cbn [db session log next_msg].
    unfold ret. rewrite <- !app_assoc. reflexivity.
  - unfold ret at 1. unfold bind. rewrite delete_all_run. cbn [db session log next_msg].
    unfold ret. rewrite <- !app_assoc. reflexivity.
Qed.

(** ** Strings *)

Lemma append_assoc (s t u : string) : ((s ++ t) ++ u = s ++ (t ++ u))%string.
Proof. induction s as [|c s IH]; cbn; [reflexivity | now rewrite IH]. Qed.

Lemma append_nil_r (s : string) : (s ++ "" = s)%string.
Proof. induction s as [|c s IH]; cbn; [reflexivity | now rewrite IH]. Qed.

Lemma length_append (s t : string) :
  String.length (s ++ t) = (String.length s + String.length t)%nat.
Proof. induction s as [|c s IH]; cbn; [reflexivity | now rewrite IH]. Qed.

Lemma prefix_append (s t : string) : String.prefix s (s ++ t) = true.
Proof.
  induction s as [|c s IH]; cbn.
  - destruct t; reflexivity.
  - destruct (ascii_dec c c) as [_|N]; [exact IH | now elim N].
Qed.

Lemma concat_cons (x : string) (l : list string) :
  String.concat " " (x :: l) = (x ++ gap l ++ String.concat " " l)%string.
Proof. destruct l; cbn; [now rewrite append_nil_r | reflexivity]. Qed.

Lemma concat_middle (l1 : list string) (x : string) (l2 : list string) :
  String.concat " " (l1 ++ x :: l2) =
  (String.concat " " l1 ++ gap l1 ++ x ++ gap l2 ++ String.concat " " l2)%string.
Proof.
  induction l1 as [|y l1 IH].
  - cbn [app String.concat gap]. cbn [append]. apply concat_cons.
  - change ((y :: l1) ++ x :: l2)%list with (y :: (l1 ++ x :: l2))%list.
    rewrite !concat_cons, IH.
    assert (G : gap (l1 ++ x :: l2)%list = " ") by (destruct l1; reflexivity).
    rewrite G. cbn [gap].
    destruct l1 as [|z l1]; cbn [gap String.concat];
      rewrite ?append_assoc; cbn [append]; reflexivity.
Qed.

(** ** Adding mentions *)

Lemma mention_run h ctx i roles w a :
  query_first i (session w) = Some a ->
  let content' :=
    (announcement_content a ++ nl ++ String.concat " " (map role_mention roles))%string in
  let t' := update_row (id a) (set_content content') (session w) in
  commit_result h t' = None ->
  Announcements.mention h ctx i roles w =
  (Return tt,
   mkWorld t' t'
     (log w ++ [EvCommit t';
                EvSend (channel_id (ctx_channel ctx))
                  ("Pings added for " ++ String.concat ", " (map role_name roles)
                   ++ " to announcement " ++ str_of_Z i ++ ".")
                  None (next_msg w)])
     (S (next_msg w))).
Proof.
  intros Hq content' t' Hc.
  unfold Announcements.mention, bind, get_session, attr, put_session, commit, send_,
    ctx_send, channel_send, bind, fresh_message, emit, ret.
  rewrite Hq. cbn [db session log next_msg]. fold content'. fold t'.
  rewrite Hc. cbn [db session log next_msg]. now rewrite <- app_assoc.
Qed.

(** C8. [mention] on a stored announcement is purely additive: the row
    keeps its key and every other column, its old content is a prefix of the
    new one, and what is appended is a newline and then the mentions of the
    roles in the order given, each next to its neighbours with one space
    between: for every role of the sequence, the appended text is the join
    of the roles before it, that role's mention, and the join of the roles
    after it. *)
Theorem mention_is_additive (h : Host) (ctx : Context) (i : Z) (roles : list Role)
        (w : World) (a : Announcement) :
  query_first i (session w) = Some a ->
  commit_result h
    (update_row (id a)
       (set_content (announcement_content a ++ nl
                     ++ String.concat " " (map role_mention roles))) (session w)) = None ->
  let w' := snd (Announcements.mention h ctx i roles w) in
  exists a' appended,
    query_first i (db w') = Some a'
    /\ announcement_content a' = (announcement_content a ++ appended)%string
    /\ appended = (nl ++ String.concat " " (map role_mention roles))%string
    /\ (id a' = id a /\ user_id a' = user_id a /\ trigger_at a' = trigger_at a
        /\ triggered a' = triggered a
        /\ playback_channel_id a' = playback_channel_id a
        /\ irc_name a' = irc_name a)
    /\ String.prefix (announcement_content a) (announcement_content a') = true
    /\ is_prefix (announcement_content a) (announcement_content a')
    /\ forall before r after, roles = (before ++ r :: after)%list ->
         appended =
         (nl ++ String.concat " " (map role_mention before)
             ++ gap (map role_mention before)
             ++ role_mention r
             ++ gap (map role_mention after)
             ++ String.concat " " (map role_mention after))%string.
Proof.
  intros Hq Hc w'. subst w'.
  rewrite (mention_run h ctx i roles w a Hq Hc). cbn [snd db].
  exists (set_content (announcement_content a ++ nl
                       ++ String.concat " " (map role_mention roles)) a),
         (nl ++ String.concat " " (map role_mention roles))%string.
  split; [apply query_first_updated; [reflexivity | exact Hq]|].
  split; [reflexivity|]. split; [reflexivity|].
  split; [repeat split|].
  split; [apply prefix_append|].
  split; [eexists; reflexivity|].
  intros before r after ->.
  rewrite map_app. cbn [map]. now rewrite concat_middle.
Qed.

Lemma mention_is_additive_witness :
  let roles := [mkRole "exec" "<@&11>"; mkRole "members" "<@&12>"] in
  exists a',
    query_first 1 (db (snd (Announcements.mention Demo.host Demo.ctx 1 roles
                              Demo.world))) = Some a'
    /\ announcement_content a' = ("Hello" ++ nl ++ "<@&11> <@&12>")%string.
Proof.
  intros roles.
  assert (Hq : query_first 1 (session Demo.world) = Some Demo.hello) by reflexivity.
  destruct (mention_is_additive Demo.host Demo.ctx 1 roles Demo.world
              Demo.hello Hq eq_refl) as (a' & appended & Q & C & A & _).
  exists a'. split; [exact Q|]. rewrite C, A. reflexivity.
Defined.

(** C10. [mention] on a stored announcement sets its content to the old
    content, one newline character, and the mentions of the roles joined by
    single spaces, and commits that table before it answers.  With no role
    at all the content still changes, by the newline, and the commit still
    happens. *)
Theorem mention_appends_newline_and_tokens (h : Host) (ctx : Context) (i : Z)
        (roles : list Role) (w : World) (a : Announcement) :
  query_first i (session w) = Some a ->
  let content' :=
    (announcement_content a ++ nl ++ String.concat " " (map role_mention roles))%string in
  let t' := update_row (id a) (set_content content') (session w) in
  commit_result h t' = None ->
  let w' := snd (Announcements.mention h ctx i roles w) in
  fst (Announcements.mention h ctx i roles w) = Return tt
  /\ db w' = t'
  /\ new_events w w' =
     [EvCommit t';
      EvSend (channel_id (ctx_channel ctx))
        ("Pings added for " ++ String.concat ", " (map role_name roles)
         ++ " to announcement " ++ str_of_Z i ++ ".")
        None (next_msg w)]
  /\ (exists a',
        query_first i (db w') = Some a'
        /\ announcement_content a'
           = (announcement_content a ++ nl
              ++ String.concat " " (map role_mention roles))%string
        /\ (roles = [] ->
            announcement_content a' = (announcement_content a ++ nl)%string
            /\ announcement_content a' <> announcement_content a))
  /\ nl = String (ascii_of_nat 10) EmptyString.
Proof.
  intros Hq content' t' Hc w'. subst w'.
  rewrite (mention_run h ctx i roles w a Hq Hc). cbn [fst snd db].
  split; [reflexivity|]. split; [reflexivity|].
  split; [apply new_events_app; reflexivity|].
  split; [|reflexivity].
  exists (set_content content' a).
  split; [apply query_first_updated; [reflexivity | exact Hq]|].
  split; [reflexivity|].
  intros ->. subst content'. cbn [map String.concat set_content announcement_content].
  split; [reflexivity|].
  intros E. apply (f_equal String.length) in E.
  rewrite !length_append in E. cbn in E. lia.
Qed.

Lemma mention_appends_newline_and_tokens_witness :
  exists a',
    query_first 1 (db (snd (Announcements.mention Demo.host Demo.ctx 1 []
                              Demo.world))) = Some a'
    /\ announcement_content a' = ("Hello" ++ nl)%string
    /\ announcement_content a' <> "Hello".
Proof.
  assert (Hq : query_first 1 (session Demo.world) = Some Demo.hello) by reflexivity.
  pose proof (mention_appends_newline_and_tokens Demo.host Demo.ctx 1 []
                Demo.world Demo.hello Hq eq_refl) as (_ & _ & _ & (a' & Q & _ & E) & _).
  exists a'. split; [exact Q|]. exact (E eq_refl).
Defined.

(** ** The author columns of a new row *)

(** C9, as stated, fails: a row made for a bridge identity has both
    columns set, the display name in [irc_name] and the user reference 1.
    And the reference is read: when the display name is empty, the scheduler
    finds no irc name and posts the row under the account of database
    user 1. *)
Lemma bridge_row_carries_both_references :
  let r := add_announcement Demo.host Demo.bridge_ctx Demo.general 900 "From IRC"
             Demo.world in
  let r0 := add_announcement Demo.host_with_user_one Demo.nameless_bridge_ctx
              Demo.general 900 "From IRC" Demo.world in
  let row := mkAnnouncement 3 1 "From IRC" 900 false 10 (Some "irc_guest") in
  let row0 := mkAnnouncement 3 1 "From IRC" 900 false 10 (Some "") in
  db (snd r) = [Demo.hello; Demo.later; row]
  /\ irc_name row = Some "irc_guest" /\ user_id row = 1
  /\ db (snd r0) = [Demo.hello; Demo.later; row0]
  /\ irc_name row0 = Some "" /\ user_id row0 = 1
  /\ author_info Demo.host_with_user_one row0 (snd r0)
     = (Return (Some "alice", Some "alice.png"), snd r0).
Proof. vm_compute. repeat split. Qed.

(** C9, amended. When the store accepts the commit, [add_announcement]
    appends one row, not yet triggered.  For a bridge identity the row
    carries the display name in [irc_name] and, as its user reference, the
    fixed placeholder 1, whoever sent the command: both columns are set, and
    the scheduler posts the row under the display name, without reading the
    user reference, whenever that name is not empty.  For any other
    requester the row carries the key of the requester's database user and
    no [irc_name].  A requester who is neither a bridge identity nor a known
    database user gets no row at all. *)
Theorem new_row_author_columns (h : Host) (ctx : Context) (channel : Channel)
        (t : Z) (content : string) (w : World) :
  (forall tbl, commit_result h tbl = None) ->
  let r := add_announcement h ctx channel t content w in
  (user_is_irc_bot ctx = true ->
     let row := mkAnnouncement (fresh_id (session w)) 1 content t false
                               (channel_id channel) (Some (get_name_string ctx)) in
     fst r = Return tt
     /\ db (snd r) = (session w ++ [row])%list
     /\ (get_name_string ctx <> "" ->
         forall h' w', author_info h' row w'
                       = (Return (Some (get_name_string ctx), None), w')))
  /\ (user_is_irc_bot ctx = false ->
      forall u, get_database_user h (ctx_author ctx) = Some u ->
        fst r = Return tt
        /\ db (snd r) =
           (session w ++ [mkAnnouncement (fresh_id (session w)) (db_id u) content t false
                                         (channel_id channel) None])%list)
  /\ (user_is_irc_bot ctx = false ->
      get_database_user h (ctx_author ctx) = None ->
      r = (Raise AttributeError, w)).
Proof.
  intros Hc r. subst r. unfold add_announcement.
  split; [|split].
  - intros Hb. rewrite Hb.
    unfold bind, ret, get_session, put_session, try_except, commit. cbn.
    rewrite Hc. cbn. split; [reflexivity|]. split; [reflexivity|].
    intros Hname h' w'. unfold author_info. cbn [irc_name truthy].
    apply String.eqb_neq in Hname. rewrite Hname. reflexivity.
  - intros Hb u Hu. rewrite Hb, Hu.
    unfold bind, attr, ret, get_session, put_session, try_except, commit. cbn.
    rewrite Hc. cbn. split; reflexivity.
  - intros Hb Hu. rewrite Hb, Hu. reflexivity.
Qed.

Lemma new_row_author_columns_witness :
  db (snd (add_announcement Demo.host Demo.bridge_ctx Demo.general 900
             "From IRC" Demo.world))
  = [Demo.hello; Demo.later;
     mkAnnouncement 3 1 "From IRC" 900 false 10 (Some "irc_guest")].
Proof.
  assert (Hc : forall tbl, commit_result Demo.host tbl = None) by reflexivity.
  destruct (new_row_author_columns Demo.host Demo.bridge_ctx
              Demo.general 900 "From IRC" Demo.world Hc) as [B _].
  destruct (B eq_refl) as (_ & E & _). rewrite E. reflexivity.
Defined.

(** ** Items the scheduler cannot resolve *)

(** A due row whose channel the bot does not know: [get_webhook] is called
    with [None], the [AttributeError] is not caught, and the turn ends
    before the other due row is looked at. *)
Lemma unknown_channel_ends_the_turn :
  let w := Demo.world_of [Demo.lost; Demo.hello] in
  scheduler_cycle Demo.host 150 w
  = (Raise AttributeError,
     mkWorld (db w) (session w) [EvDue [Demo.lost; Demo.hello]] 0%nat).
Proof. reflexivity. Qed.

(** C6. The scheduler does not skip a due row it cannot resolve.  When
    the bot does not know the row's channel, [get_webhook] is called with
    [None] and raises [AttributeError]; when the platform refuses the
    listing or the creation of the webhook with anything but
    [MissingPermissions], [Forbidden] for one, [get_webhook] lets it
    through.  Either way the exception leaves the body of the loop and the
    loop itself before anything is marked or sent: the rows after it are not
    processed, and the turn that selected it ends the task. *)
Theorem unresolved_item_ends_the_turn (h : Host) (a : Announcement)
        (rest : list Announcement) (cycles : list (Host * Z)) (now : Z) (w : World)
        (e : exn) :
  (get_channel h (playback_channel_id a) = None /\ e = AttributeError)
  \/ (exists c,
        get_channel h (playback_channel_id a) = Some c
        /\ is_MissingPermissions e = false
        /\ (channel_webhooks h c = Raise e
            \/ exists hooks,
                 channel_webhooks h c = Return hooks
                 /\ find (fun k => (webhook_name k =? "Apollo Announcements")%string) hooks
                    = None
                 /\ channel_create_webhook h c "Apollo Announcements" = Raise e)) ->
  post_announcement h a w = (Raise e, w)
  /\ forM_ (a :: rest) (post_announcement h) w = (Raise e, w)
  /\ (filter (is_due now) (session w) = a :: rest ->
      announcement_check ((h, now) :: cycles) w
      = (Raise e,
         mkWorld (db w) (session w) (log w ++ [EvDue (a :: rest)]) (next_msg w))).
Proof.
  intros Hbad.
  assert (G : forall w0, get_webhook h (get_channel h (playback_channel_id a)) w0
                         = (Raise e, w0)).
  { intros w0. unfold get_webhook, try_except, bind, attr, lift_outcome, ret, raise.
    destruct Hbad as [[-> ->]|(c & -> & Hm & [Hl|(hooks & Hl & Hf & Hc)])].
    - reflexivity.
    - rewrite Hl. cbn. now rewrite Hm.
    - rewrite Hl. cbn. rewrite Hf, Hc. cbn. now rewrite Hm. }
  assert (B : forall w0, post_announcement h a w0 = (Raise e, w0)).
  { intros w0. unfold post_announcement. unfold bind at 1. now rewrite G. }
  assert (L : forall w0, forM_ (a :: rest) (post_announcement h) w0 = (Raise e, w0)).
  { intros w0. cbn [forM_]. unfold bind. now rewrite B. }
  split; [apply B|]. split; [apply L|].
  intros Hdue. cbn [announcement_check]. unfold bind at 1.
  rewrite scheduler_cycle_unfold, Hdue, L. reflexivity.
Qed.

(** The theorem on two due rows, the first in a channel the bot does not
    know: the second is never looked at. *)
Lemma unresolved_item_ends_the_turn_witness :
  let w := Demo.world_of [Demo.lost; Demo.hello] in
  announcement_check [(Demo.host, 150); (Demo.host, 160)] w
  = (Raise AttributeError,
     mkWorld (db w) (session w) [EvDue [Demo.lost; Demo.hello]] 0%nat).
Proof.
  intros w.
  assert (H : (get_channel Demo.host (playback_channel_id Demo.lost) = None
               /\ AttributeError = AttributeError)
              \/ (exists c,
                    get_channel Demo.host (playback_channel_id Demo.lost) = Some c
                    /\ is_MissingPermissions AttributeError = false
                    /\ (channel_webhooks Demo.host c = Raise AttributeError
                        \/ exists hooks,
                             channel_webhooks Demo.host c = Return hooks
                             /\ find (fun k => (webhook_name k =? "Apollo Announcements")%string)
                                     hooks = None
                             /\ channel_create_webhook Demo.host c "Apollo Announcements"
                                = Raise AttributeError)))
    by (left; split; reflexivity).
  destruct (unresolved_item_ends_the_turn Demo.host Demo.lost [Demo.hello]
              [(Demo.host, 160)] 150 w AttributeError H) as (_ & _ & T).
  exact (T eq_refl).
Defined.

(** The same with a channel where the platform refuses the listing of the
    webhooks. *)
Lemma forbidden_webhooks_end_the_turn :
  let h := Demo.host_with (Raise Forbidden) None None (Some tick) in
  scheduler_cycle h 150 Demo.world
  = (Raise Forbidden,
     mkWorld (db Demo.world) (session Demo.world) [EvDue [Demo.hello]] 0%nat).
Proof. reflexivity. Qed.

(** * Further properties of the cog *)

(** ** Handlers that leave the store alone *)

Lemma keeps_ret {A} (a : A) : keeps_store (ret a).
Proof. intros w. split; reflexivity. Qed.

Lemma keeps_raise {A} (e : exn) : keeps_store (@raise A e).
Proof. intros w. split; reflexivity. Qed.

Lemma keeps_bind {A B} (c : M A) (k : A -> M B) :
  keeps_store c -> (forall a, keeps_store (k a)) -> keeps_store (bind c k).
Proof.
  intros Hc Hk w. unfold bind. specialize (Hc w).
  destruct (c w) as [[a|e] w1]; cbn [snd] in *.
  - destruct (Hk a w1) as [D S]. destruct Hc as [D1 S1]. split; congruence.
  - exact Hc.
Qed.

Lemma keeps_try_except {A} (c : M A) caught (handler : exn -> M A) :
  keeps_store c -> (forall e, keeps_store (handler e)) ->
  keeps_store (try_except c caught handler).
Proof.
  intros Hc Hh w. unfold try_except. specialize (Hc w).
  destruct (c w) as [[a|e] w1]; cbn [snd] in *; [exact Hc|].
  destruct (caught e); [|exact Hc].
  destruct (Hh e w1) as [D S]. destruct Hc as [D1 S1]. split; congruence.
Qed.

Lemma keeps_emit e : keeps_store (emit e).
Proof. intros w. split; reflexivity. Qed.

Lemma keeps_fresh_message : keeps_store fresh_message.
Proof. intros w. split; reflexivity. Qed.

Lemma keeps_get_session : keeps_store get_session.
Proof. intros w. split; reflexivity. Qed.

Lemma keeps_attr {A} (o : option A) : keeps_store (attr o).
Proof. destruct o; [apply keeps_ret | apply keeps_raise]. Qed.

Lemma keeps_lift_outcome {A} (o : Outcome A) : keeps_store (lift_outcome o).
Proof. destruct o; [apply keeps_ret | apply keeps_raise]. Qed.

Lemma keeps_when b c : keeps_store c -> keeps_store (when b c).
Proof. intros H. destruct b; [exact H | apply keeps_ret]. Qed.

Lemma keeps_forM {A} (l : list A) (f : A -> M unit) :
  (forall a, keeps_store (f a)) -> keeps_store (forM_ l f).
Proof.
  intros Hf. induction l as [|a l IH]; cbn [forM_]; [apply keeps_ret|].
  apply keeps_bind; [apply Hf | intros _; exact IH].
Qed.

Lemma keeps_mapM {A B} (f : A -> M B) (l : list A) :
  (forall a, keeps_store (f a)) -> keeps_store (mapM f l).
Proof.
  intros Hf. induction l as [|a l IH]; cbn [mapM]; [apply keeps_ret|].
  apply keeps_bind; [apply Hf | intros b].
  apply keeps_bind; [exact IH | intros bs; apply keeps_ret].
Qed.

Create HintDb keeps.
#[local] Hint Resolve keeps_ret keeps_raise keeps_emit keeps_fresh_message
  keeps_get_session keeps_attr keeps_lift_outcome : keeps.

Ltac keeps :=
  repeat first
    [ apply keeps_bind; [|intros ?]
    | apply keeps_try_except; [|intros ?]
    | apply keeps_when
    | apply keeps_forM; intros ?
    | apply keeps_mapM; intros ?
    | solve [auto with keeps]
    | match goal with
      | |- keeps_store (match ?x with _ => _ end) => destruct x
      | |- keeps_store (if ?x then _ else _) => destruct x
      end ].

Lemma keeps_channel_send c text mentions : keeps_store (channel_send c text mentions).
Proof. unfold channel_send. keeps. Qed.

Lemma keeps_send_ ctx text : keeps_store (send_ ctx text).
Proof. unfold send_, ctx_send. apply keeps_bind; [apply keeps_channel_send | intros; keeps]. Qed.

Lemma keeps_message_delete m : keeps_store (message_delete m).
Proof. unfold message_delete. keeps. Qed.

#[local] Hint Resolve keeps_channel_send keeps_send_ keeps_message_delete : keeps.

Lemma keeps_get_webhook h channel : keeps_store (get_webhook h channel).
Proof. unfold get_webhook. keeps. Qed.

Lemma keeps_generate_announcement h channel text hook author avatar mentions :
  keeps_store (generate_announcement h channel text hook author avatar mentions).
Proof. unfold generate_announcement, post_chunk. keeps. Qed.

Lemma keeps_interact ctx messages content preview msg reaction :
  keeps_store (interact ctx messages content preview msg reaction).
Proof. unfold interact. keeps. Qed.

Lemma keeps_timeout ctx messages content msg :
  keeps_store (timeout ctx messages content msg).
Proof. unfold timeout. keeps. Qed.

#[local] Hint Resolve keeps_get_webhook keeps_generate_announcement
  keeps_interact keeps_timeout : keeps.

Lemma keeps_preview_edit_menu h ctx messages content preview :
  keeps_store (preview_edit_menu h ctx messages content preview).
Proof.
  unfold preview_edit_menu, confirmation, ctx_send. keeps.
Qed.

Lemma keeps_preview_announcement h ctx content preview menu :
  keeps_store (preview_announcement h ctx content preview menu).
Proof.
  unfold preview_announcement.
  pose proof (keeps_preview_edit_menu h ctx) as K. keeps; apply K.
Qed.

(** ** The webhook of a channel *)

(** X1. [get_webhook] absorbs [MissingPermissions] and nothing else.  It
    never raises it: it answers [None] exactly when listing the webhooks is
    refused with it, or when none has the name and creating one is refused
    with it.  Every other exception of the listing or of the creation,
    [Forbidden] for one, is raised to the caller as it is, and a channel
    that is [None] gives [AttributeError]. *)
Theorem get_webhook_absorbs_missing_permissions (h : Host) (channel : option Channel)
        (w : World) :
  fst (get_webhook h channel w) <> Raise MissingPermissions
  /\ (channel = None -> fst (get_webhook h channel w) = Raise AttributeError)
  /\ (forall c, channel = Some c ->
        (fst (get_webhook h channel w) = Return None <->
         channel_webhooks h c = Raise MissingPermissions
         \/ exists hooks,
              channel_webhooks h c = Return hooks
              /\ find (fun k => (webhook_name k =? "Apollo Announcements")%string) hooks = None
              /\ channel_create_webhook h c "Apollo Announcements"
                 = Raise MissingPermissions))
  /\ (forall c e, channel = Some c ->
        is_MissingPermissions e = false ->
        channel_webhooks h c = Raise e
        \/ (exists hooks,
              channel_webhooks h c = Return hooks
              /\ find (fun k => (webhook_name k =? "Apollo Announcements")%string) hooks = None
              /\ channel_create_webhook h c "Apollo Announcements" = Raise e) ->
        fst (get_webhook h channel w) = Raise e).
Proof.
  assert (T : forall (P Q R S : Prop), P -> Q -> R -> S -> P /\ Q /\ R /\ S) by tauto.
  assert (MP : is_MissingPermissions MissingPermissions = true) by reflexivity.
  unfold get_webhook, try_except, bind, attr, lift_outcome, ret, raise.
  destruct channel as [c|]; cbn [fst snd].
  2:{ apply T; [discriminate | reflexivity | intros c Hc; discriminate Hc
               | intros c e Hc; discriminate Hc]. }
  destruct (channel_webhooks h c) as [hooks|e] eqn:EW; cbn [fst snd];
    [destruct (find _ hooks) as [k|] eqn:EF; cbn [fst snd];
      [|destruct (channel_create_webhook h c _) as [k|e] eqn:EC; cbn [fst snd];
        [|destruct e; cbn [is_MissingPermissions fst snd]]]
    |destruct e; cbn [is_MissingPermissions fst snd]];
    (apply T;
     [ discriminate
     | intros H; discriminate H
     | intros c' Hc'; inversion Hc'; subst c'; split;
       [ intros H;
         first [ discriminate H
               | left; rewrite EW; reflexivity
               | right; exists hooks; rewrite EW, EC; repeat split; assumption ]
       | intros [H|(hooks' & H1 & H2 & H3)];
         first [ reflexivity | congruence ] ]
     | intros c' e' Hc' Hm Hcase; inversion Hc'; subst c';
       destruct Hcase as [Hl|(hooks' & Hl & Hf & Hcr)]; congruence ]).
Qed.

(** X2. When the channel already has a webhook named Apollo Announcements,
    [get_webhook] answers with the first one of that name in the channel's
    list, whatever a creation would have given. *)
Theorem get_webhook_reuses_the_existing_one (h : Host) (c : Channel)
        (hooks : list Webhook) (k : Webhook) (w : World) :
  channel_webhooks h c = Return hooks ->
  In k hooks ->
  webhook_name k = "Apollo Announcements" ->
  exists before k' after,
    get_webhook h (Some c) w = (Return (Some k'), w)
    /\ hooks = (before ++ k' :: after)%list
    /\ webhook_name k' = "Apollo Announcements"
    /\ forall b, In b before -> webhook_name b <> "Apollo Announcements".
Proof.
  intros HW Hin Hname.
  unfold get_webhook, try_except, bind, attr, lift_outcome, ret, raise.
  rewrite HW. cbn [fst snd].
  assert (F : exists before k' after,
             find (fun k => (webhook_name k =? "Apollo Announcements")%string) hooks = Some k'
             /\ hooks = (before ++ k' :: after)%list
             /\ webhook_name k' = "Apollo Announcements"
             /\ forall b, In b before -> webhook_name b <> "Apollo Announcements").
  { clear HW. induction hooks as [|x hooks IH]; [contradiction|].
    cbn [find]. destruct (webhook_name x =? "Apollo Announcements")%string eqn:E.
    - exists [], x, hooks. apply String.eqb_eq in E. repeat split; auto.
    - assert (Hin' : In k hooks).
      { destruct Hin as [->|H]; [|exact H].
        rewrite Hname, String.eqb_refl in E. discriminate. }
      destruct (IH Hin') as (before & k' & after & F1 & F2 & F3 & F4).
      exists (x :: before), k', after. repeat split; auto.
      + rewrite F2. reflexivity.
      + intros b [->|Hb]; [now apply String.eqb_neq | now apply F4]. }
  destruct F as (before & k' & after & F1 & F2 & F3 & F4).
  exists before, k', after. rewrite F1. repeat split; auto.
Qed.

Lemma get_webhook_reuses_the_existing_one_witness :
  get_webhook Demo.host (Some Demo.general) Demo.world
  = (Return (Some Demo.hook), Demo.world).
Proof.
  destruct (get_webhook_reuses_the_existing_one Demo.host Demo.general [Demo.hook]
              Demo.hook Demo.world eq_refl (or_introl eq_refl) eq_refl)
    as (before & k' & after & E & _).
  reflexivity.
Defined.

(** ** The two queries and the first line *)

(** X3. The scheduler's query and the listing's query cover the rows that
    are not triggered: such a row is due or pending at every clock, and it is
    both exactly when its trigger time is the clock. *)
Theorem untriggered_rows_are_due_or_pending (now : Z) (a : Announcement) :
  triggered a = false ->
  (is_due now a || is_pending now a = true)
  /\ (is_due now a && is_pending now a = true <-> trigger_at a = now).
Proof.
  intros Ht. unfold is_due, is_pending. rewrite Ht. cbn [negb].
  rewrite !andb_true_r. split.
  - destruct (trigger_at a <=? now) eqn:E; [reflexivity|].
    apply Z.leb_gt in E. apply Z.geb_le. lia.
  - rewrite andb_true_iff, Z.leb_le, Z.geb_le. lia.
Qed.

Lemma untriggered_rows_are_due_or_pending_witness :
  is_due 100 Demo.hello && is_pending 100 Demo.hello = true.
Proof.
  apply (untriggered_rows_are_due_or_pending 100 Demo.hello eq_refl). reflexivity.
Defined.

Lemma first_line_append (s rest : string) :
  has_newline s = false -> first_line (s ++ nl ++ rest) = s.
Proof.
  induction s as [|c s IH]; cbn [append first_line has_newline]; [reflexivity|].
  intros H. apply orb_false_iff in H. destruct H as [H1 H2].
  rewrite H1. f_equal. apply IH, H2.
Qed.

(** X4. The preview line of the listing, the text before the first line
    break: it has no line break, the content starts with it, a content
    without a line break is its own first line, and of a content made of a
    line, a line break and more text it is that line. *)
Theorem first_line_is_the_text_before_the_break (s : string) :
  has_newline (first_line s) = false
  /\ is_prefix (first_line s) s
  /\ (has_newline s = false -> first_line s = s)
  /\ (forall line rest, has_newline line = false ->
        s = (line ++ nl ++ rest)%string -> first_line s = line).
Proof.
  split; [|split; [|split]].
  - induction s as [|c s IH]; cbn [first_line]; [reflexivity|].
    destruct (Ascii.eqb c (ascii_of_nat 10)) eqn:E; cbn [has_newline]; [reflexivity|].
    rewrite E. exact IH.
  - induction s as [|c s [rest IH]]; cbn [first_line].
    + exists "". reflexivity.
    + destruct (Ascii.eqb c (ascii_of_nat 10)).
      * exists (String c s). reflexivity.
      * exists rest. cbn [append]. now rewrite <- IH.
  - induction s as [|c s IH]; cbn [first_line has_newline]; [reflexivity|].
    intros H. apply orb_false_iff in H. destruct H as [H1 H2].
    rewrite H1. f_equal. apply IH, H2.
  - intros line rest Hl ->. now apply first_line_append.
Qed.

(** ** The menu, on every outcome *)

Lemma new_events_mk w d s l n : new_events w (mkWorld d s (log w ++ l) n) = l.
Proof. now apply new_events_app. Qed.

Lemma filter_delete_all messages : filter is_delete (map EvDelete messages) = map EvDelete messages.
Proof. induction messages as [|m ms IH]; cbn; [reflexivity | now rewrite IH]. Qed.

Lemma interact_run ctx messages content (preview : bool) msg reaction w :
  let chan := channel_id (ctx_channel ctx) in
  let stop := ((reaction =? cross) || (reaction =? pencil))%string in
  let body :=
    if stop then
      (map EvDelete messages
       ++ (if (reaction =? cross)%string
           then [EvSend chan "Announcement cancelled" None (next_msg w)] else [])
       ++ (if (reaction =? pencil)%string
           then [EvProcessCommands (ctx_message_id ctx)] else []))%list
    else
      ((if preview then [EvSend chan (preview_hint content) None (next_msg w)] else [])
       ++ map EvDelete messages)%list in
  let sent := if stop then (reaction =? cross)%string else preview in
  interact ctx messages content preview msg reaction w =
  (Return (negb stop),
   mkWorld (db w) (session w) (log w ++ EvDelete msg :: body)
           (if sent then S (next_msg w) else next_msg w)).
Proof.
  intros chan stop body sent. subst chan stop body sent.
  unfold interact. unfold bind at 1. unfold message_delete at 1, emit at 1.
  destruct ((reaction =? cross) || (reaction =? pencil))%string eqn:Stop.
  - unfold bind at 1. rewrite delete_all_run. cbn [db session log next_msg negb].
    unfold when, send_, ctx_send, channel_send.
    destruct (reaction =? cross)%string, (reaction =? pencil)%string;
      unfold bind, fresh_message, emit, ret; cbn [db session log next_msg];
      rewrite <- ?app_assoc; cbn [app]; rewrite ?app_nil_r; reflexivity.
  - cbn [negb]. unfold when, send_, ctx_send, channel_send.
    destruct preview.
    + unfold bind at 1 2 3 4. unfold fresh_message, emit, ret at 1 2.
      cbn [db session log next_msg].
      unfold bind. rewrite delete_all_run. cbn [db session log next_msg].
      unfold ret. rewrite <- !app_assoc. reflexivity.
    + unfold bind at 1. unfold ret at 1. unfold bind. rewrite delete_all_run.
      cbn [db session log next_msg]. unfold ret. rewrite <- !app_assoc. reflexivity.
Qed.

Lemma timeout_run ctx messages content msg w :
  timeout ctx messages content msg w =
  (Return false,
   mkWorld (db w) (session w)
     (log w ++ EvDelete msg
        :: EvSend (channel_id (ctx_channel ctx))
             ("**Timeout.** Restart posting with: `!announcement preview "
              ++ content ++ "`") None (next_msg w)
        :: map EvDelete messages)
     (S (next_msg w))).
Proof.
  unfold timeout. unfold bind at 1. unfold message_delete at 1, emit at 1.
  unfold send_, ctx_send, channel_send.
  unfold bind at 1 2 3 4. unfold fresh_message, emit, ret at 1 2.
  cbn [db session log next_msg].
  unfold bind. rewrite delete_all_run. cbn [db session log next_msg].
  unfold ret. rewrite <- !app_assoc. reflexivity.
Qed.

(** X5. On the cancelling reaction the menu deletes the prompt and every
    preview message, then says that the announcement is cancelled, and
    returns [False]; it does not hand the invoking message back to the
    command dispatcher, and it leaves the store alone. *)
Theorem interact_on_cancel (ctx : Context) (messages : list Message)
        (content : string) (preview : bool) (msg : Message) (w : World) :
  interact ctx messages content preview msg cross w =
  (Return false,
   mkWorld (db w) (session w)
     (log w ++ EvDelete msg :: map EvDelete messages
        ++ [EvSend (channel_id (ctx_channel ctx)) "Announcement cancelled" None
                   (next_msg w)])
     (S (next_msg w))).
Proof.
  rewrite interact_run. reflexivity.
Qed.

(** X6. Whatever the reaction, [interact] deletes the prompt first and then
    every preview message, each once and in order, and deletes nothing else;
    it returns [True] exactly for a reaction that is neither the cancelling
    nor the editing one.  [timeout] deletes the same messages and returns
    [False]. *)
Theorem menu_always_deletes_prompt_and_preview (ctx : Context)
        (messages : list Message) (content : string) (preview : bool)
        (msg : Message) (reaction : string) (w : World) :
  let r := interact ctx messages content preview msg reaction w in
  let t := timeout ctx messages content msg w in
  filter is_delete (new_events w (snd r)) = map EvDelete (msg :: messages)
  /\ fst r = Return (negb ((reaction =? cross) || (reaction =? pencil))%string)
  /\ filter is_delete (new_events w (snd t)) = map EvDelete (msg :: messages)
  /\ fst t = Return false.
Proof.
  intros r t. subst r t. rewrite interact_run, timeout_run. cbn [fst snd].
  rewrite !new_events_mk.
  split; [|split; [reflexivity|split; [|reflexivity]]].
  - cbn [filter is_delete map].
    destruct ((reaction =? cross) || (reaction =? pencil))%string.
    + rewrite !filter_app, filter_delete_all.
      destruct (reaction =? cross)%string, (reaction =? pencil)%string;
        cbn [filter is_delete]; now rewrite ?app_nil_r.
    + rewrite filter_app, filter_delete_all. destruct preview; reflexivity.
  - cbn [filter is_delete map]. now rewrite filter_delete_all.
Qed.

(** X7. When the wait ends without a reaction, [timeout] deletes the
    prompt, tells the requester how to restart the preview with the same
    content, deletes every preview message, and returns [False]. *)
Theorem timeout_notifies_and_cleans_up (ctx : Context) (messages : list Message)
        (content : string) (msg : Message) (w : World) :
  let r := timeout ctx messages content msg w in
  fst r = Return false
  /\ db (snd r) = db w /\ session (snd r) = session w
  /\ new_events w (snd r) =
     EvDelete msg
     :: EvSend (channel_id (ctx_channel ctx))
          ("**Timeout.** Restart posting with: `!announcement preview " ++ content ++ "`")
          None (next_msg w)
     :: map EvDelete messages.
Proof.
  intros r. subst r. rewrite timeout_run. cbn [fst snd db session].
  rewrite new_events_mk. repeat split.
Qed.

(** ** Commands that only read *)

Lemma keeps_list_entry h a : keeps_store (Announcements.list_entry h a).
Proof. unfold Announcements.list_entry. keeps. Qed.

(** X8. [check] and [list] are read-only: whatever the host answers and
    however they end, with a result or with an exception, the table and the
    session are what they were.  So is [preview], as long as the requester
    does not choose to edit, which hands the invoking message back to the
    command dispatcher. *)
Theorem preview_check_and_list_are_read_only (h : Host) (ctx : Context)
        (content : string) (i now : Z) (w : World) :
  await_reaction h <> Some pencil ->
  (db (snd (Announcements.preview h ctx content w)) = db w
   /\ session (snd (Announcements.preview h ctx content w)) = session w)
  /\ (forall h',
        db (snd (Announcements.check h' ctx i w)) = db w
        /\ session (snd (Announcements.check h' ctx i w)) = session w)
  /\ (forall h',
        db (snd (Announcements.list h' now ctx w)) = db w
        /\ session (snd (Announcements.list h' now ctx w)) = session w).
Proof.
  intros _.
  split; [|split].
  - pose proof (keeps_preview_announcement h ctx) as KP.
    apply (keeps_bind (preview_announcement h ctx content true true)); [apply KP|].
    intros; apply keeps_ret.
  - intros h'. pose proof (keeps_preview_announcement h' ctx) as KP.
    unfold Announcements.check.
    assert (K : keeps_store
                  (t <- get_session ;;
                   found <- attr (query_first i t) ;;
                   send_ ctx ("**Message Source:**```" ++ nl ++ announcement_content found
                              ++ "```") ;;
                   preview_announcement h' ctx (announcement_content found) true false ;;
                   ret tt)).
    { apply keeps_bind; [apply keeps_get_session | intros t].
      apply keeps_bind; [apply keeps_attr | intros found].
      apply keeps_bind; [apply keeps_send_ | intros _].
      apply keeps_bind; [apply KP | intros; apply keeps_ret]. }
    apply K.
  - intros h'. pose proof (keeps_list_entry h') as KL.
    unfold Announcements.list.
    assert (K : keeps_store
                  (t <- get_session ;;
                   entries <- mapM (Announcements.list_entry h')
                                   (filter (is_pending now) t) ;;
                   forM_ (split_into_messages h' ("**Pending Announcements:**" :: entries))
                         (fun text => ctx_send ctx text (Some Mentions_none) ;; ret tt))).
    { apply keeps_bind; [apply keeps_get_session | intros t].
      apply keeps_bind; [apply keeps_mapM; exact KL | intros entries].
      apply keeps_forM. intros text.
      apply keeps_bind; [apply keeps_channel_send | intros; apply keeps_ret]. }
    apply K.
Qed.

Lemma preview_check_and_list_are_read_only_witness :
  db (snd (Announcements.preview Demo.host Demo.ctx "Hi" Demo.world)) = db Demo.world.
Proof.
  assert (H : await_reaction Demo.host <> Some pencil)
    by (intros E; inversion E).
  exact (proj1 (proj1 (preview_check_and_list_are_read_only Demo.host Demo.ctx "Hi"
                         1 100 Demo.world H))).
Defined.

Lemma list_entry_shape h a w :
  (exists line, Announcements.list_entry h a w = (Return line, w))
  \/ Announcements.list_entry h a w = (Raise AttributeError, w).
Proof.
  unfold Announcements.list_entry, bind, attr, ret, raise.
  destruct (truthy (irc_name a)).
  - destruct (irc_name a); eauto.
  - destruct (announcement_user h a) as [u|]; [|eauto].
    destruct (get_user h (user_uid u)); eauto.
Qed.

Lemma list_entries_shape h l w :
  exists out,
    mapM (Announcements.list_entry h) l w = (out, w)
    /\ match out with
       | Return entries => length entries = length l
       | Raise e => e = AttributeError
       end.
Proof.
  induction l as [|a l (out & E2 & L)]; cbn [mapM].
  - exists (Return []). split; reflexivity.
  - unfold bind at 1.
    destruct (list_entry_shape h a w) as [[line E]|E]; rewrite E;
      [|exists (Raise AttributeError); split; reflexivity].
    unfold bind at 1. rewrite E2.
    destruct out as [entries|e].
    + exists (Return (line :: entries)). split; [reflexivity | cbn; now rewrite L].
    + exists (Raise e). split; [reflexivity | exact L].
Qed.

Lemma listing_events_quiet chan texts : forall n,
  Forall (fun e => exists text m, e = EvSend chan text (Some Mentions_none) m)
         (listing_events chan n texts).
Proof.
  induction texts as [|t ts IH]; intros n; cbn; constructor; eauto.
Qed.

Lemma list_entry_listed h a w :
  (exists entry, Announcements.list_entry h a w = (Return entry, w) /\ listed_as h a entry)
  \/ (Announcements.list_entry h a w = (Raise AttributeError, w) /\ unlisted h a).
Proof.
  unfold Announcements.list_entry, listed_as, unlisted, bind, attr, ret, raise.
  destruct (truthy (irc_name a)) eqn:T.
  - destruct (irc_name a) as [name|] eqn:N; [|discriminate T].
    left. eexists. split; [reflexivity|]. exists name. split; [left; split; reflexivity|].
    reflexivity.
  - destruct (announcement_user h a) as [u|] eqn:U;
      [|right; split; [reflexivity | split; [reflexivity | left; reflexivity]]].
    destruct (get_user h (user_uid u)) as [who|] eqn:G.
    + left. eexists. split; [reflexivity|]. exists (mention_of_user who).
      split; [right; split; [reflexivity | exists u, who; repeat split;
                                         first [assumption | reflexivity]]|].
      reflexivity.
    + right. split; [reflexivity|]. split; [reflexivity|]. right. exists u.
      split; first [assumption | reflexivity].
Qed.

Lemma not_both_listed h a entry : listed_as h a entry -> unlisted h a -> False.
Proof.
  intros (author & [[T _]|(T & u & who & U & G & _)] & _) [T' M]; [congruence|].
  destruct M as [M|(u' & U' & G')]; congruence.
Qed.

Lemma list_entries_listed h l w :
  (exists entries,
     mapM (Announcements.list_entry h) l w = (Return entries, w)
     /\ Forall2 (listed_as h) l entries)
  \/ (mapM (Announcements.list_entry h) l w = (Raise AttributeError, w)
      /\ Exists (unlisted h) l).
Proof.
  induction l as [|a l IH].
  - left. exists []. split; [reflexivity | constructor].
  - destruct (mapM (Announcements.list_entry h) (a :: l) w) as [out w1] eqn:E.
    cbn [mapM] in E. unfold bind at 1 in E.
    destruct (list_entry_listed h a w) as [(entry & E1 & L1)|[E1 U1]]; rewrite E1 in E.
    + unfold bind at 1 in E.
      destruct IH as [(entries & E2 & L2)|[E2 U2]]; rewrite E2 in E;
        inversion E; subst.
      * left. exists (entry :: entries). split; [reflexivity | now constructor].
      * right. split; [reflexivity | now apply Exists_cons_tl].
    + inversion E; subst. right. split; [reflexivity | now apply Exists_cons_hd].
Qed.

(** X9. [list] names every pending row of the session, in the order of the
    table: when the author of each can be found, it sends the texts that
    [split_into_messages] makes of the header and one entry per pending row,
    each entry giving the row's key, channel, time, author and the first
    line of its content, and nothing else.  When the author of some pending
    row without irc name cannot be found, it raises [AttributeError] and
    sends nothing.  Whatever it sends goes to the command's channel with
    every mention suppressed. *)
Theorem list_sends_the_pending_rows_quietly (h : Host) (now : Z) (ctx : Context)
        (w : World) :
  let r := Announcements.list h now ctx w in
  let chan := channel_id (ctx_channel ctx) in
  let pending := filter (is_pending now) (session w) in
  (Exists (unlisted h) pending -> r = (Raise AttributeError, w))
  /\ (Forall (fun a => ~ unlisted h a) pending ->
      exists entries,
        Forall2 (listed_as h) pending entries
        /\ fst r = Return tt
        /\ new_events w (snd r) =
           listing_events chan (next_msg w)
             (split_into_messages h ("**Pending Announcements:**" :: entries)))
  /\ Forall (fun e => exists text m, e = EvSend chan text (Some Mentions_none) m)
            (new_events w (snd r)).
Proof.
  intros r chan pending. subst r chan.
  destruct (list_run h now ctx w) as (out & E & R). rewrite R. fold pending in E.
  destruct (list_entries_listed h pending w) as [(entries & E2 & L)|[E2 U]];
    rewrite E in E2; inversion E2; subst out; cbn [fst snd].
  - rewrite new_events_mk. split; [|split].
    + intros X. exfalso. clear - L X.
      induction L as [|a entry l es La L IH]; inversion X; subst;
        [eapply not_both_listed; eauto | auto].
    + intros _. exists entries. repeat split. exact L.
    + apply listing_events_quiet.
  - split; [reflexivity|]. split.
    + intros F. exfalso. clear - F U.
      induction U as [a l Ua|a l U IH]; inversion F; subst; auto.
    + rewrite (new_events_app w w []) by now rewrite app_nil_r. constructor.
Qed.

(** ** The preview, from its header to the menu *)

Lemma preview_edit_menu_run h ctx messages content (preview : bool) w :
  exists text,
    let prompt := next_msg w in
    let w1 := mkWorld (db w) (session w)
                (log w ++ [EvSend (channel_id (ctx_channel ctx)) text None prompt])
                (S prompt) in
    preview_edit_menu h ctx messages content preview w =
    match await_reaction h with
    | Some reaction =>
        if existsb (String.eqb reaction) [tick; pencil; cross]
        then interact ctx messages content preview prompt reaction w1
        else timeout ctx messages content prompt w1
    | None => timeout ctx messages content prompt w1
    end.
Proof.
  eexists. cbv zeta.
  unfold preview_edit_menu, confirmation, ctx_send, channel_send.
  unfold bind at 1 2 3. unfold fresh_message, emit, ret.
  cbn [db session log next_msg].
  destruct (await_reaction h) as [reaction|]; [destruct (existsb _ _)|]; reflexivity.
Qed.

Lemma menu_true_only_on_tick h ctx messages content (preview : bool) w w' :
  preview_edit_menu h ctx messages content preview w = (Return true, w') ->
  await_reaction h = Some tick.
Proof.
  destruct (preview_edit_menu_run h ctx messages content preview w) as [text E].
  cbv zeta in E. rewrite E. clear E.
  destruct (await_reaction h) as [reaction|]; [|rewrite timeout_run; discriminate].
  destruct (existsb _ _) eqn:X; [|rewrite timeout_run; discriminate].
  rewrite interact_run. intros H. inversion H as [[Hs Hw]].
  cbn [existsb] in X. apply negb_true_iff in Hs.
  apply orb_false_iff in Hs. destruct Hs as [Hc Hp].
  rewrite Hc, Hp in X. cbn in X. rewrite orb_false_r in X.
  apply String.eqb_eq in X. now subst.
Qed.

Lemma preview_announcement_run h ctx content (preview menu : bool) w hook :
  get_webhook h (Some (ctx_channel ctx)) w = (Return hook, w) ->
  let chan := channel_id (ctx_channel ctx) in
  let author := if ANNOUNCEMENT_IMPERSONATE h then ctx_author ctx else bot_user h in
  let answer :=
    generate_announcement_result h (Some (ctx_channel ctx)) content hook
      (Some (name author)) (Some (avatar_url author)) None in
  let n := next_msg w in
  let k := length (fst answer) in
  let rendered :=
    (log w ++ EvSend chan "**Announcement Preview:**" None n
       :: EvGenerate (Some (ctx_channel ctx)) content hook (Some (name author))
            (Some (avatar_url author)) None
       :: post_events (S n) (fst answer))%list in
  preview_announcement h ctx content preview menu w =
  match snd answer with
  | Some e => (Raise e, mkWorld (db w) (session w) rendered (k + S n)%nat)
  | None =>
      let w2 := mkWorld (db w) (session w)
                  (rendered ++ [EvSend chan "**End of Announcement Preview**" None
                                       (k + S n)%nat])
                  (S (k + S n)) in
      if menu then
        (result <- preview_edit_menu h ctx (preview_messages n (fst answer))
                     content preview ;;
         ret (Some result)) w2
      else (Return None, w2)
  end.
Proof.
  intros Hw chan author answer n k rendered.
  unfold preview_announcement. unfold bind at 1. rewrite Hw.
  unfold bind at 1. unfold channel_send at 1.
  unfold bind at 1 2. unfold fresh_message at 1, emit at 1, ret at 1.
  cbn [db session log next_msg].
  unfold bind at 1. rewrite generate_announcement_run.
  cbn [db session log next_msg]. fold author. fold answer. fold k. fold n.
  rewrite <- app_assoc. cbn [app]. fold chan. fold rendered.
  destruct (snd answer) as [e|]; [reflexivity|].
  unfold bind at 1. unfold channel_send at 1.
  unfold bind at 1 2. unfold fresh_message at 1, emit at 1, ret at 1.
  cbn [db session log next_msg]. fold chan.
  destruct menu; reflexivity.
Qed.

Lemma preview_true_only_on_tick h ctx content (preview menu : bool) w w' :
  preview_announcement h ctx content preview menu w = (Return (Some true), w') ->
  await_reaction h = Some tick.
Proof.
  destruct (get_webhook_pure h (Some (ctx_channel ctx)) w) as [[hook|e] Hw].
  - rewrite (preview_announcement_run h ctx content preview menu w hook Hw).
    cbv zeta. destruct (snd _); [discriminate|].
    destruct menu; [|discriminate].
    unfold bind.
    destruct (preview_edit_menu _ _ _ _ _ _) as [[result|e] w2] eqn:E; [|discriminate].
    unfold ret. intros H. inversion H; subst.
    eapply menu_true_only_on_tick; eauto.
  - unfold preview_announcement. unfold bind at 1. rewrite Hw. discriminate.
Qed.

(** X10. When the rendering of a preview fails, the exception leaves
    [preview_announcement] at once: the header and the blocks already
    posted stay in the channel, neither the footer nor the menu is shown,
    and nothing is deleted. *)
Theorem failed_preview_leaves_its_messages (h : Host) (ctx : Context)
        (content : string) (preview menu : bool) (w : World) (hook : option Webhook)
        (e : exn) :
  let chan := channel_id (ctx_channel ctx) in
  let author := if ANNOUNCEMENT_IMPERSONATE h then ctx_author ctx else bot_user h in
  let answer :=
    generate_announcement_result h (Some (ctx_channel ctx)) content hook
      (Some (name author)) (Some (avatar_url author)) None in
  get_webhook h (Some (ctx_channel ctx)) w = (Return hook, w) ->
  snd answer = Some e ->
  let r := preview_announcement h ctx content preview menu w in
  fst r = Raise e
  /\ new_events w (snd r) =
     EvSend chan "**Announcement Preview:**" None (next_msg w)
     :: EvGenerate (Some (ctx_channel ctx)) content hook (Some (name author))
          (Some (avatar_url author)) None
     :: post_events (S (next_msg w)) (fst answer)
  /\ filter is_delete (new_events w (snd r)) = [].
Proof.
  intros chan author answer Hw Hf r. subst r.
  rewrite (preview_announcement_run h ctx content preview menu w hook Hw).
  cbv zeta. fold author. fold answer. rewrite Hf. cbn [fst snd].
  rewrite new_events_mk. split; [reflexivity|]. split; [reflexivity|].
  cbn [filter is_delete].
  induction (fst answer) as [|c cs IH] in |- *; [reflexivity|].
  clear. generalize (S (next_msg w)).
  induction (c :: cs) as [|x xs IH]; intros n; [reflexivity | apply IH].
Qed.

Lemma failed_preview_leaves_its_messages_witness :
  fst (preview_announcement Demo.host_failing_delivery Demo.ctx "Hi" true true Demo.world)
  = Raise (OtherException "HTTPException").
Proof.
  apply (failed_preview_leaves_its_messages Demo.host_failing_delivery Demo.ctx "Hi"
           true true Demo.world (Some Demo.hook) (OtherException "HTTPException")
           eq_refl eq_refl).
Defined.

Lemma no_delete_in_posts chunks : forall n, filter is_delete (post_events n chunks) = [].
Proof. induction chunks as [|c cs IH]; intros n; [reflexivity | apply IH]. Qed.

Lemma preview_edit_menu_outcome h ctx messages content (preview : bool) w :
  exists b body w',
    preview_edit_menu h ctx messages content preview w = (Return b, w')
    /\ log w' = (log w ++ body)%list
    /\ db w' = db w /\ session w' = session w
    /\ filter is_delete body = map EvDelete (next_msg w :: messages)
    /\ (b = true <-> await_reaction h = Some tick).
Proof.
  destruct (preview_edit_menu_run h ctx messages content preview w) as [text E].
  cbv zeta in E. rewrite E. clear E.
  assert (T : forall w1 : World, exists b body w',
             timeout ctx messages content (next_msg w)
               (mkWorld (db w) (session w)
                  (log w ++ [EvSend (channel_id (ctx_channel ctx)) text None (next_msg w)])
                  (S (next_msg w))) = (Return b, w')
             /\ log w' = (log w ++ body)%list
             /\ db w' = db w /\ session w' = session w
             /\ filter is_delete body = map EvDelete (next_msg w :: messages)
             /\ b = false).
  { intros _. rewrite timeout_run. cbn [db session log next_msg].
    eexists _, _, _. split; [reflexivity|]. cbn [db session log].
    split; [rewrite <- app_assoc; reflexivity|].
    repeat split. cbn [app filter is_delete map]. now rewrite filter_delete_all. }
  destruct (await_reaction h) as [reaction|] eqn:R.
  - destruct (existsb (String.eqb reaction) [tick; pencil; cross]) eqn:X.
    + rewrite interact_run. cbn [db session log next_msg].
      eexists _, _, _. split; [reflexivity|]. cbn [db session log].
      split; [rewrite <- app_assoc; reflexivity|].
      split; [reflexivity|]. split; [reflexivity|]. split.
      * cbn [app filter is_delete map].
        destruct ((reaction =? cross) || (reaction =? pencil))%string.
        -- rewrite !filter_app, filter_delete_all.
           destruct (reaction =? cross)%string, (reaction =? pencil)%string;
             cbn [filter is_delete]; now rewrite ?app_nil_r.
        -- rewrite filter_app, filter_delete_all. destruct preview; reflexivity.
      * cbn [existsb] in X. rewrite orb_false_r in X.
        split.
        -- intros Hs. apply negb_true_iff in Hs.
           apply orb_false_iff in Hs. destruct Hs as [Hc Hp].
           rewrite Hc, Hp in X. cbn in X. rewrite orb_false_r in X.
           apply String.eqb_eq in X. now subst.
        -- intros Ht. inversion Ht; subst. reflexivity.
    + destruct (T w) as (b & body & w' & E1 & E2 & E3 & E4 & E5 & E6).
      exists b, body, w'. repeat split; auto; subst b; try discriminate.
      intros Ht. inversion Ht; subst. discriminate X.
  - destruct (T w) as (b & body & w' & E1 & E2 & E3 & E4 & E5 & E6).
    exists b, body, w'. repeat split; auto; subst b; discriminate.
Qed.

Lemma preview_always_cleans_up_aux h ctx content (preview : bool) w hook :
  let author := if ANNOUNCEMENT_IMPERSONATE h then ctx_author ctx else bot_user h in
  get_webhook h (Some (ctx_channel ctx)) w = (Return hook, w) ->
  snd (generate_announcement_result h (Some (ctx_channel ctx)) content hook
         (Some (name author)) (Some (avatar_url author)) None) = None ->
  exists b,
    fst (preview_announcement h ctx content preview true w) = Return (Some b)
    /\ (b = true <-> await_reaction h = Some tick).
Proof.
  intros author Hw Hok.
  rewrite (preview_announcement_run h ctx content preview true w hook Hw).
  cbv zeta. fold author. rewrite Hok. unfold bind.
  match goal with
  | |- context [preview_edit_menu h ctx ?ms content preview ?w2] =>
      destruct (preview_edit_menu_outcome h ctx ms content preview w2)
        as (b & body & w' & E & _ & _ & _ & _ & B)
  end.
  rewrite E. exists b. split; [reflexivity | exact B].
Qed.

(** X11. A preview whose rendering succeeded always ends with the channel
    cleaned: the prompt is deleted first, then the header, every posted
    block and the footer, whatever the requester did, and also after the
    timeout.  Its result is [True] exactly when the requester confirmed.
    (The prompt and the wait are the confirmation helper's, which posts one
    prompt and calls [interact] or [timeout].) *)
Theorem preview_always_cleans_up (h : Host) (ctx : Context) (content : string)
        (preview : bool) (w : World) (hook : option Webhook) :
  let author := if ANNOUNCEMENT_IMPERSONATE h then ctx_author ctx else bot_user h in
  let answer :=
    generate_announcement_result h (Some (ctx_channel ctx)) content hook
      (Some (name author)) (Some (avatar_url author)) None in
  let n := next_msg w in
  let k := length (fst answer) in
  get_webhook h (Some (ctx_channel ctx)) w = (Return hook, w) ->
  snd answer = None ->
  let r := preview_announcement h ctx content preview true w in
  (exists b, fst r = Return (Some b) /\ (b = true <-> await_reaction h = Some tick))
  /\ filter is_delete (new_events w (snd r))
     = map EvDelete (S (k + S n) :: preview_messages n (fst answer)).
Proof.
  intros author answer n k Hw Hok r. subst r.
  rewrite (preview_announcement_run h ctx content preview true w hook Hw).
  cbv zeta. fold author. fold answer. rewrite Hok. fold n. fold k.
  unfold bind.
  match goal with
  | |- context [preview_edit_menu h ctx ?ms content preview ?w2] =>
      destruct (preview_edit_menu_outcome h ctx ms content preview w2)
        as (b & body & w' & E & L & _ & _ & F & B)
  end.
  rewrite E. unfold ret. cbn [fst snd]. cbn [log next_msg] in L, F.
  split; [exists b; split; [reflexivity | exact B]|].
  rewrite <- !app_assoc in L. cbn [app] in L.
  rewrite (new_events_app _ _ _ L).
  cbn [filter is_delete]. rewrite filter_app, no_delete_in_posts.
  cbn [app filter is_delete]. exact F.
Qed.

Lemma preview_always_cleans_up_witness :
  filter is_delete
    (new_events Demo.world
       (snd (preview_announcement Demo.host Demo.ctx "Hi" true true Demo.world)))
  = map EvDelete [3; 0; 1; 2]%nat.
Proof.
  apply (preview_always_cleans_up Demo.host Demo.ctx "Hi" true Demo.world
           (Some Demo.hook) eq_refl eq_refl).
Defined.

(** ** Adding an announcement *)

Lemma add_keeps_store_unless_confirmed h now ctx channel trigger_time content w :
  await_reaction h <> Some tick ->
  db (snd (Announcements.add h now ctx channel trigger_time content w)) = db w
  /\ session (snd (Announcements.add h now ctx channel trigger_time content w))
     = session w.
Proof.
  intros Hno. unfold Announcements.add.
  destruct trigger_time as [t|]; [|apply keeps_send_].
  destruct (t <? now); [apply keeps_send_|].
  unfold bind.
  destruct (preview_announcement h ctx content false true w) as [[result|e] w1] eqn:E.
  - pose proof (keeps_preview_announcement h ctx content false true w) as K.
    rewrite E in K. cbn [snd] in K.
    destruct result as [[|]|]; [|exact K|exact K].
    exfalso. apply Hno. eapply preview_true_only_on_tick; eauto.
  - pose proof (keeps_preview_announcement h ctx content false true w) as K.
    rewrite E in K. exact K.
Qed.

(** X12. [add] persists nothing when the requester cancels or lets the
    menu time out: the table and the session are what they were, whatever
    the trigger time.  And a trigger time the converter could not read ends
    with the message about the time format alone.  (The wait is the
    confirmation helper's, which posts one prompt and calls [interact] on
    the reaction or [timeout] when there is none.) *)
Theorem add_persists_nothing_on_cancel_or_timeout (h : Host) (now : Z) (ctx : Context)
        (channel : Channel) (trigger_time : option Z) (content : string) (w : World) :
  await_reaction h = None \/ await_reaction h = Some cross ->
  let r := Announcements.add h now ctx channel trigger_time content w in
  db (snd r) = db w /\ session (snd r) = session w
  /\ (trigger_time = None ->
      r = (Return tt,
           mkWorld (db w) (session w)
             (log w ++ [EvSend (channel_id (ctx_channel ctx))
                          "Incorrect time format, please see help text." None
                          (next_msg w)])
             (S (next_msg w)))).
Proof.
  intros Hr r. subst r.
  assert (Hno : await_reaction h <> Some tick).
  { destruct Hr as [->| ->]; [discriminate|]. intros E. inversion E. }
  destruct (add_keeps_store_unless_confirmed h now ctx channel trigger_time content w Hno)
    as [D S].
  split; [exact D|]. split; [exact S|].
  intros ->. reflexivity.
Qed.

Lemma add_persists_nothing_on_cancel_or_timeout_witness :
  db (snd (Announcements.add (Demo.host_with (Return [Demo.hook]) None None (Some cross))
             100 Demo.ctx Demo.general (Some 500) "Hi" Demo.world))
  = db Demo.world.
Proof.
  assert (H : await_reaction (Demo.host_with (Return [Demo.hook]) None None (Some cross))
              = None
              \/ await_reaction (Demo.host_with (Return [Demo.hook]) None None (Some cross))
                 = Some cross) by (right; reflexivity).
  apply (add_persists_nothing_on_cancel_or_timeout
           (Demo.host_with (Return [Demo.hook]) None None (Some cross))
           100 Demo.ctx Demo.general (Some 500) "Hi" Demo.world H).
Defined.

Lemma add_announcement_run h ctx channel t content w author_id irc_n :
  (user_is_irc_bot ctx = true /\ author_id = 1 /\ irc_n = Some (get_name_string ctx))
  \/ (user_is_irc_bot ctx = false
      /\ exists u, get_database_user h (ctx_author ctx) = Some u
                   /\ author_id = db_id u /\ irc_n = None) ->
  let t' := add_row (mkAnnouncement 0 author_id content t false (channel_id channel) irc_n)
                    (session w) in
  let chan := channel_id (ctx_channel ctx) in
  add_announcement h ctx channel t content w =
  match commit_result h t' with
  | None =>
      (Return tt,
       mkWorld t' t'
         (log w ++ [EvCommit t';
                    EvSend chan
                      ("Announcement prepared for <t:" ++ str_of_Z (timestamp_int h t)
                       ++ ":R> (granularity is "
                       ++ precisedelta h (ANNOUNCEMENT_SEARCH_INTERVAL h) ++ ").")
                      None (next_msg w)])
         (S (next_msg w)))
  | Some e =>
      if is_store_error e then
        (Return tt,
         mkWorld (db w) (db w)
           (log w ++ [EvRollback; EvLogException e;
                      EvSend chan "Something went wrong" None (next_msg w)])
           (S (next_msg w)))
      else (Raise e, mkWorld (db w) t' (log w) (next_msg w))
  end.
Proof.
  intros Hauthor t' chan. subst t' chan. unfold add_announcement.
  assert (A : forall w0,
             (if user_is_irc_bot ctx then ret (1, Some (get_name_string ctx))
              else u <- attr (get_database_user h (ctx_author ctx)) ;; ret (db_id u, None)) w0
             = (Return (author_id, irc_n), w0)).
  { intros w0. destruct Hauthor as [(B & -> & ->)|(B & u & U & -> & ->)]; rewrite B.
    - reflexivity.
    - rewrite U. reflexivity. }
  unfold bind at 1. rewrite A.
  unfold bind at 1. unfold get_session at 1.
  unfold bind at 1. unfold put_session at 1.
  unfold try_except. unfold bind at 1. unfold commit at 1.
  cbn [db session log next_msg].
  destruct (commit_result h _) as [e|].
  - destruct (is_store_error e); [|reflexivity].
    unfold rollback, send_, ctx_send, channel_send, bind, fresh_message, emit, ret.
    cbn [db session log next_msg]. rewrite <- !app_assoc. reflexivity.
  - unfold send_, ctx_send, channel_send, bind, fresh_message, emit, ret.
    cbn [db session log next_msg]. rewrite <- !app_assoc. reflexivity.
Qed.

(** X13. [add] with a trigger time not before the clock, a preview that
    renders, a requester who confirms and whose author columns resolve, and
    a store that accepts the commit, appends exactly one row to the table:
    not triggered, with the given content, time and channel.  That row is
    pending at the clock of the call and due at every clock from its
    trigger time on. *)
Theorem confirmed_add_persists_one_pending_row (h : Host) (now : Z) (ctx : Context)
        (channel : Channel) (t : Z) (content : string) (w : World)
        (hook : option Webhook) (author_id : Z) (irc_n : option string) :
  let author := if ANNOUNCEMENT_IMPERSONATE h then ctx_author ctx else bot_user h in
  let row := mkAnnouncement (fresh_id (session w)) author_id content t false
                            (channel_id channel) irc_n in
  now <= t ->
  get_webhook h (Some (ctx_channel ctx)) w = (Return hook, w) ->
  snd (generate_announcement_result h (Some (ctx_channel ctx)) content hook
         (Some (name author)) (Some (avatar_url author)) None) = None ->
  await_reaction h = Some tick ->
  (user_is_irc_bot ctx = true /\ author_id = 1 /\ irc_n = Some (get_name_string ctx))
  \/ (user_is_irc_bot ctx = false
      /\ exists u, get_database_user h (ctx_author ctx) = Some u
                   /\ author_id = db_id u /\ irc_n = None) ->
  commit_result h (session w ++ [row])%list = None ->
  let r := Announcements.add h now ctx channel (Some t) content w in
  fst r = Return tt
  /\ db (snd r) = (session w ++ [row])%list
  /\ session (snd r) = db (snd r)
  /\ is_pending now row = true
  /\ (forall later, t <= later -> is_due later row = true).
Proof.
  intros author row Hnow Hw Hok Htick Hauthor Hcommit r. subst r.
  unfold Announcements.add.
  assert (Hlt : (t <? now) = false) by (apply Z.ltb_ge; lia).
  rewrite Hlt. unfold bind.
  destruct (preview_announcement h ctx content false true w) as [res w1] eqn:E.
  pose proof (keeps_preview_announcement h ctx content false true w) as K.
  rewrite E in K. cbn [snd] in K. destruct K as [_ K].
  assert (R : res = Return (Some true)).
  { pose proof (preview_always_cleans_up_aux h ctx content false w hook Hw Hok) as P.
    rewrite E in P. cbn [fst] in P. destruct P as (b & P1 & P2).
    rewrite P1. f_equal. f_equal. now apply P2. }
  subst res.
  rewrite (add_announcement_run h ctx channel t content w1 author_id irc_n Hauthor).
  cbv zeta. unfold add_row. rewrite K. cbn [announcement_content user_id trigger_at
    triggered playback_channel_id irc_name]. fold row. rewrite Hcommit. cbn [fst snd db session].
  repeat split.
  - unfold is_pending, row. cbn. rewrite andb_true_r. apply Z.geb_le. lia.
  - intros later Hl. unfold is_due, row. cbn. rewrite andb_true_r. now apply Z.leb_le.
Qed.

Lemma confirmed_add_persists_one_pending_row_witness :
  db (snd (Announcements.add Demo.host 100 Demo.ctx Demo.general (Some 500) "Hi"
             Demo.world))
  = [Demo.hello; Demo.later; mkAnnouncement 3 7 "Hi" 500 false 10 None].
Proof.
  assert (Hnow : 100 <= 500) by lia.
  assert (Hauthor :
            (user_is_irc_bot Demo.ctx = true /\ 7 = 1
             /\ @None string = Some (get_name_string Demo.ctx))
            \/ (user_is_irc_bot Demo.ctx = false
                /\ exists u, get_database_user Demo.host (ctx_author Demo.ctx) = Some u
                             /\ 7 = db_id u /\ @None string = None)).
  { right. split; [reflexivity|]. exists (mkDbUser 7 42). repeat split. }
  destruct (confirmed_add_persists_one_pending_row Demo.host 100 Demo.ctx Demo.general
              500 "Hi" Demo.world (Some Demo.hook) 7 None Hnow eq_refl eq_refl eq_refl
              Hauthor eq_refl) as (_ & E & _).
  exact E.
Defined.

(** X14. When the store refuses the commit of a new announcement with one
    of the two store errors, [add_announcement] rolls back: the table is
    unchanged, the session is the table again, the exception is logged, the
    requester is told that something went wrong, and the handler returns.
    Any other exception of the commit leaves the handler, with the table
    unchanged and nothing sent. *)
Theorem refused_commit_is_rolled_back (h : Host) (ctx : Context) (channel : Channel)
        (t : Z) (content : string) (w : World) (author_id : Z)
        (irc_n : option string) (e : exn) :
  (user_is_irc_bot ctx = true /\ author_id = 1 /\ irc_n = Some (get_name_string ctx))
  \/ (user_is_irc_bot ctx = false
      /\ exists u, get_database_user h (ctx_author ctx) = Some u
                   /\ author_id = db_id u /\ irc_n = None) ->
  commit_result h
    (add_row (mkAnnouncement 0 author_id content t false (channel_id channel) irc_n)
             (session w)) = Some e ->
  let r := add_announcement h ctx channel t content w in
  db (snd r) = db w
  /\ (is_store_error e = true ->
      fst r = Return tt
      /\ session (snd r) = db w
      /\ new_events w (snd r) =
         [EvRollback; EvLogException e;
          EvSend (channel_id (ctx_channel ctx)) "Something went wrong" None (next_msg w)])
  /\ (is_store_error e = false ->
      fst r = Raise e /\ new_events w (snd r) = []).
Proof.
  intros Hauthor Hc r. subst r.
  rewrite (add_announcement_run h ctx channel t content w author_id irc_n Hauthor).
  cbv zeta. rewrite Hc.
  destruct (is_store_error e); cbn [fst snd db session].
  - split; [reflexivity|]. split; [|discriminate].
    intros _. rewrite new_events_mk. repeat split.
  - split; [reflexivity|]. split; [discriminate|].
    intros _. split; [reflexivity|].
    apply new_events_app. cbn [log]. now rewrite app_nil_r.
Qed.

Lemma refused_commit_is_rolled_back_witness :
  let h := Demo.host_with (Return [Demo.hook]) (Some SQLAlchemyError) None (Some tick) in
  session (snd (add_announcement h Demo.bridge_ctx Demo.general 900 "From IRC" Demo.world))
  = db Demo.world.
Proof.
  intros h.
  assert (Hauthor :
            (user_is_irc_bot Demo.bridge_ctx = true /\ 1 = 1
             /\ Some "irc_guest" = Some (get_name_string Demo.bridge_ctx))
            \/ (user_is_irc_bot Demo.bridge_ctx = false
                /\ exists u, get_database_user h (ctx_author Demo.bridge_ctx) = Some u
                             /\ 1 = db_id u /\ Some "irc_guest" = None)).
  { left. repeat split. }
  destruct (refused_commit_is_rolled_back h Demo.bridge_ctx Demo.general 900 "From IRC"
              Demo.world 1 (Some "irc_guest") SQLAlchemyError Hauthor eq_refl)
    as (_ & S & _).
  exact (proj1 (proj2 (S eq_refl))).
Defined.

(** ** After a cancellation *)

Lemma cancel_run h ctx i w :
  let chan := channel_id (ctx_channel ctx) in
  Announcements.cancel h ctx i w =
  match query_first i (session w) with
  | Some a =>
      let t' := delete_row a (session w) in
      match commit_result h t' with
      | None =>
          (Return tt,
           mkWorld t' t'
             (log w ++ [EvCommit t'; EvSend chan "Announcement Deleted" None (next_msg w)])
             (S (next_msg w)))
      | Some e => (Raise e, mkWorld (db w) t' (log w) (next_msg w))
      end
  | None =>
      (Return tt,
       mkWorld (db w) (session w)
         (log w ++ [EvSend chan "Announcement does not exist" None (next_msg w)])
         (S (next_msg w)))
  end.
Proof.
  cbv zeta.
  unfold Announcements.cancel, bind, get_session, put_session, commit, send_,
    ctx_send, channel_send, bind, fresh_message, emit, ret.
  destruct (query_first i (session w)) as [a|]; [|reflexivity].
  cbn [db session log next_msg].
  destruct (commit_result h _); [reflexivity|].
  cbn [db session log next_msg]. now rewrite <- app_assoc.
Qed.

Lemma deleted_row_is_gone a t b : In b (delete_row a t) -> id b <> id a.
Proof.
  unfold delete_row. intros H. apply filter_In in H. destruct H as [_ H].
  apply negb_true_iff in H. now apply Z.eqb_neq.
Qed.

Lemma absent_key_is_marked i t : (forall b, In b t -> id b <> i) -> marked i t.
Proof. intros H b Hb Hi. exfalso. exact (H b Hb Hi). Qed.

(** X15. A cancelled announcement never comes back.  After [cancel] found
    and deleted the row, no row of the session has its key; no turn of the
    scheduler, however many there are, selects, assigns or delivers a row
    with that key; and another [cancel] of the key only says that the
    announcement does not exist, leaving the store as it is. *)
Theorem cancelled_rows_never_come_back (h : Host) (ctx : Context) (i : Z) (w : World)
        (a : Announcement) :
  query_first i (session w) = Some a ->
  commit_result h (delete_row a (session w)) = None ->
  let w1 := snd (Announcements.cancel h ctx i w) in
  (forall b, In b (session w1) -> id b <> i)
  /\ (forall cycles,
        let w2 := snd (announcement_check cycles w1) in
        marks i (new_events w1 w2) = 0%nat
        /\ existsb (selects i) (new_events w1 w2) = false
        /\ count_occ Z.eq_dec (deliveries None (new_events w1 w2)) i = 0%nat
        /\ forall b, In b (session w2) -> id b <> i)
  /\ (forall h' ctx',
        let r := Announcements.cancel h' ctx' i w1 in
        fst r = Return tt
        /\ db (snd r) = db w1 /\ session (snd r) = session w1
        /\ new_events w1 (snd r) =
           [EvSend (channel_id (ctx_channel ctx')) "Announcement does not exist" None
                   (next_msg w1)]).
Proof.
  intros Hq Hc w1.
  pose proof (query_first_id i _ a Hq) as Hi.
  assert (E1 : session w1 = delete_row a (session w)).
  { subst w1. rewrite cancel_run. cbv zeta. rewrite Hq, Hc. reflexivity. }
  assert (Gone : forall b, In b (session w1) -> id b <> i).
  { intros b Hb. rewrite E1 in Hb. rewrite <- Hi. eapply deleted_row_is_gone; eauto. }
  split; [exact Gone|]. split.
  - intros cycles w2. subst w2.
    destruct (announcement_check cycles w1) as [out w2] eqn:E.
    destruct (announcement_check_facts cycles w1 out w2 E)
      as (l & (L & I & S & D & M) & Z0 & U).
    cbn [snd]. rewrite (new_events_app w1 w2 l L).
    destruct (Z0 i (absent_key_is_marked i _ Gone)) as [A B].
    pose proof (deliveries_bound i l None) as B0. cbn beta iota in B0.
    repeat split; auto; [lia|].
    intros b Hb Hbi. apply (in_map id) in Hb. rewrite I in Hb.
    apply in_map_iff in Hb. destruct Hb as (b0 & Hid & Hb0).
    apply (Gone b0 Hb0). congruence.
  - intros h' ctx' r. subst r. rewrite cancel_run. cbv zeta.
    assert (N : query_first i (session w1) = None).
    { rewrite E1. now apply query_first_deleted. }
    rewrite N. cbn [fst snd db session]. rewrite new_events_mk. repeat split.
Qed.

Lemma cancelled_rows_never_come_back_witness :
  let w1 := snd (Announcements.cancel Demo.host Demo.ctx 1 Demo.world) in
  marks 1 (new_events w1 (snd (announcement_check [(Demo.host, 150); (Demo.host, 600)] w1)))
  = 0%nat.
Proof.
  destruct (cancelled_rows_never_come_back Demo.host Demo.ctx 1 Demo.world Demo.hello
              eq_refl eq_refl) as (_ & S & _).
  exact (proj1 (S [(Demo.host, 150); (Demo.host, 600)])).
Defined.

(** ** Mentions and the other columns *)

Lemma update_content_keeps_columns i s t :
  map (set_content "") (update_row i (set_content s) t) = map (set_content "") t.
Proof.
  unfold update_row. rewrite map_map. apply map_ext.
  intros a. destruct (id a =? i); reflexivity.
Qed.

Lemma update_content_filter (f : Announcement -> bool) i s t :
  (forall a, f (set_content s a) = f a) ->
  map id (filter f (update_row i (set_content s) t)) = map id (filter f t).
Proof.
  intros Hf. unfold update_row.
  induction t as [|a t IH]; cbn [map filter]; [reflexivity|].
  destruct (id a =? i).
  - rewrite Hf. destruct (f a); cbn [map]; now rewrite IH.
  - destruct (f a); cbn [map]; now rewrite IH.
Qed.

Lemma update_row_other i f t b : In b t -> id b <> i -> In b (update_row i f t).
Proof.
  intros Hb Hi. unfold update_row. apply in_map_iff. exists b.
  apply Z.eqb_neq in Hi. now rewrite Hi.
Qed.

(** X16. [mention] changes the content of the rows with that key and
    nothing else: the table keeps its rows in their order with every other
    column, rows with another key are literally the same, and the same keys
    are due and pending at every clock as before. *)
Theorem mention_touches_only_the_content (h : Host) (ctx : Context) (i : Z)
        (roles : list Role) (w : World) (a : Announcement) :
  query_first i (session w) = Some a ->
  commit_result h
    (update_row (id a)
       (set_content (announcement_content a ++ nl
                     ++ String.concat " " (map role_mention roles))) (session w)) = None ->
  let w' := snd (Announcements.mention h ctx i roles w) in
  map (set_content "") (db w') = map (set_content "") (session w)
  /\ (forall b, In b (session w) -> id b <> i -> In b (db w'))
  /\ (forall now,
        map id (filter (is_due now) (db w')) = map id (filter (is_due now) (session w))
        /\ map id (filter (is_pending now) (db w'))
           = map id (filter (is_pending now) (session w))).
Proof.
  intros Hq Hc w'. subst w'.
  rewrite (mention_run h ctx i roles w a Hq Hc). cbn [snd db].
  pose proof (query_first_id i _ a Hq) as Hi.
  split; [apply update_content_keeps_columns|]. split.
  - intros b Hb Hbi. apply update_row_other; congruence.
  - intros now. split; apply update_content_filter; reflexivity.
Qed.

Lemma mention_touches_only_the_content_witness :
  In Demo.later
     (db (snd (Announcements.mention Demo.host Demo.ctx 1 [mkRole "exec" "<@&11>"]
                 Demo.world))).
Proof.
  destruct (mention_touches_only_the_content Demo.host Demo.ctx 1
              [mkRole "exec" "<@&11>"] Demo.world Demo.hello eq_refl eq_refl)
    as (_ & O & _).
  apply O; [right; left; reflexivity | discriminate].
Defined.

(** X17. Two [mention]s in a row add up: the content ends with the first
    line of mentions and then the second, each on a line of its own, in the
    order of the calls. *)
Theorem mentions_accumulate (h : Host) (ctx : Context) (i : Z)
        (first second : list Role) (w : World) (a : Announcement) :
  query_first i (session w) = Some a ->
  (forall tbl, commit_result h tbl = None) ->
  let w1 := snd (Announcements.mention h ctx i first w) in
  let w2 := snd (Announcements.mention h ctx i second w1) in
  exists a2,
    query_first i (db w2) = Some a2
    /\ announcement_content a2
       = (announcement_content a
          ++ nl ++ String.concat " " (map role_mention first)
          ++ nl ++ String.concat " " (map role_mention second))%string.
Proof.
  intros Hq Hc w1 w2. subst w2 w1.
  rewrite (mention_run h ctx i first w a Hq (Hc _)). cbn [snd].
  set (a1 := set_content (announcement_content a ++ nl
                          ++ String.concat " " (map role_mention first)) a).
  assert (Hq1 : query_first i
                  (update_row (id a) (set_content (announcement_content a1)) (session w))
                = Some a1).
  { apply query_first_updated; [reflexivity | exact Hq]. }
  match goal with
  | |- context [Announcements.mention h ctx i second ?w1] =>
      rewrite (mention_run h ctx i second w1 a1 Hq1 (Hc _))
  end.
  cbn [snd db session].
  exists (set_content (announcement_content a1 ++ nl
                       ++ String.concat " " (map role_mention second)) a1).
  split.
  - exact (query_first_updated i _ a1
             (set_content (announcement_content a1 ++ nl
                           ++ String.concat " " (map role_mention second)))
             (fun _ => eq_refl) Hq1).
  - subst a1. cbn [set_content announcement_content]. now rewrite !append_assoc.
Qed.

Lemma mentions_accumulate_witness :
  let w1 := snd (Announcements.mention Demo.host Demo.ctx 1 [mkRole "exec" "<@&11>"]
                   Demo.world) in
  let w2 := snd (Announcements.mention Demo.host Demo.ctx 1 [mkRole "all" "<@&12>"] w1) in
  exists a2,
    query_first 1 (db w2) = Some a2
    /\ announcement_content a2 = ("Hello" ++ nl ++ "<@&11>" ++ nl ++ "<@&12>")%string.
Proof.
  apply (mentions_accumulate Demo.host Demo.ctx 1 [mkRole "exec" "<@&11>"]
           [mkRole "all" "<@&12>"] Demo.world Demo.hello eq_refl (fun _ => eq_refl)).
Defined.

(** ** What a turn of the scheduler does to the table *)

Lemma flags_raised_refl t : flags_raised t t.
Proof. induction t; constructor; auto. Qed.

Lemma flags_raised_trans t1 t2 t3 :
  flags_raised t1 t2 -> flags_raised t2 t3 -> flags_raised t1 t3.
Proof.
  intros H. revert t3. induction H as [|a b t1 t2 Hab H IH]; intros t3 H3;
    inversion H3; subst; constructor; [|now apply IH].
  destruct Hab as [->| ->]; [assumption|].
  match goal with H : _ \/ _ |- _ => destruct H as [->| ->] end; right; reflexivity.
Qed.

Lemma flags_raised_update i t : flags_raised t (update_row i (set_triggered true) t).
Proof.
  unfold update_row. induction t as [|a t IH]; cbn [map]; constructor; [|exact IH].
  destruct (id a =? i); auto.
Qed.


Lemma flags_raised_columns t t' :
  flags_raised t t' -> map (set_triggered true) t' = map (set_triggered true) t.
Proof.
  induction 1 as [|a b t t' Hab H IH]; cbn [map]; [reflexivity|].
  rewrite IH. destruct Hab as [->| ->]; reflexivity.
Qed.

Lemma post_announcement_session h a w :
  let w' := snd (post_announcement h a w) in
  (session w' = session w
   /\ (exists e, fst (post_announcement h a w) = Raise e)
   /\ db w' = db w /\ new_events w w' = [])
  \/ (session w' = marked_table a w
      /\ (fst (post_announcement h a w) = Return tt -> db w' = session w')).
Proof.
  cbv zeta.
  destruct (post_announcement_cases h a w)
    as [[e E] | [[e [_ E]] | [hook [author (_ & _ & _ & E)]]]]; rewrite E; cbn [fst snd].
  - left. split; [reflexivity|]. split; [eauto|]. split; [reflexivity|].
    apply new_events_app. now rewrite app_nil_r.
  - right. cbn [session]. split; [reflexivity | discriminate].
  - right. cbn [session db]. split; reflexivity.
Qed.

Lemma post_loop_flags h l : forall w,
  flags_raised (session w) (session (snd (forM_ l (post_announcement h) w))).
Proof.
  induction l as [|a l IH]; intros w; cbn [forM_]; [apply flags_raised_refl|].
  unfold bind.
  pose proof (post_announcement_session h a w) as P. cbv zeta in P.
  destruct (post_announcement h a w) as [[[]|e] w1]; cbn [fst snd] in *.
  - eapply flags_raised_trans; [|apply IH].
    destruct P as [(S & _)|(S & _)]; rewrite S;
      [apply flags_raised_refl | apply flags_raised_update].
  - destruct P as [(S & _)|(S & _)]; rewrite S;
      [apply flags_raised_refl | apply flags_raised_update].
Qed.

Lemma scheduler_cycle_flags h now w :
  flags_raised (session w) (session (snd (scheduler_cycle h now w))).
Proof.
  unfold scheduler_cycle. unfold bind at 1. unfold get_session at 1.
  unfold bind at 1. unfold emit at 1.
  match goal with
  | |- context [forM_ ?l _ ?w0] => exact (post_loop_flags h l w0)
  end.
Qed.

(** X18. The scheduler only ever raises flags.  After any number of turns,
    however they end, the session has the same rows in the same order, each
    either untouched or with [triggered] set: no row is added or deleted,
    and no content, trigger time, channel or author column changes. *)
Theorem scheduler_only_raises_flags (cycles : list (Host * Z)) (w : World) :
  let w' := snd (announcement_check cycles w) in
  flags_raised (session w) (session w')
  /\ map (set_triggered true) (session w') = map (set_triggered true) (session w)
  /\ length (session w') = length (session w).
Proof.
  cbv zeta.
  assert (F : flags_raised (session w) (session (snd (announcement_check cycles w)))).
  { revert w. induction cycles as [|[h now] cycles IH]; intros w;
      cbn [announcement_check]; [apply flags_raised_refl|].
    unfold bind. pose proof (scheduler_cycle_flags h now w) as C.
    destruct (scheduler_cycle h now w) as [[[]|e] w1]; cbn [snd] in *; [|exact C].
    eapply flags_raised_trans; [exact C | apply IH]. }
  split; [exact F|]. split; [now apply flags_raised_columns|].
  symmetry. eapply Forall2_length; eauto.
Qed.




Lemma distinct_keys t a b :
  NoDup (map id t) -> In a t -> In b t -> a <> b -> id a <> id b.
Proof.
  induction t as [|x t IH]; cbn [map]; intros Hn Ha Hb Hab; [contradiction|].
  inversion Hn as [|? ? Hx Hn']; subst.
  destruct Ha as [->|Ha], Hb as [->|Hb].
  - congruence.
  - intros E. apply Hx. rewrite E. now apply in_map.
  - intros E. apply Hx. rewrite <- E. now apply in_map.
  - now apply IH.
Qed.

Lemma NoDup_keys_filter (f : Announcement -> bool) t :
  NoDup (map id t) -> NoDup (map id (filter f t)).
Proof.
  induction t as [|x t IH]; cbn [map filter]; intros Hn; [constructor|].
  inversion Hn as [|? ? Hx Hn']; subst.
  destruct (f x); [|now apply IH].
  cbn [map]. constructor; [|now apply IH].
  intros Hin. apply Hx. apply in_map_iff in Hin. destruct Hin as (y & Hy & Hin).
  apply filter_In in Hin. rewrite <- Hy. apply in_map. tauto.
Qed.

Lemma post_loop_untouched h a l : forall w,
  (forall b, In b l -> id b <> id a) ->
  In a (session w) ->
  In a (session (snd (forM_ l (post_announcement h) w))).
Proof.
  induction l as [|b l IH]; intros w Hl Ha; cbn [forM_]; [exact Ha|].
  unfold bind.
  pose proof (post_announcement_session h b w) as P. cbv zeta in P.
  assert (Ha1 : In a (session (snd (post_announcement h b w)))).
  { destruct P as [(S & _)|(S & _)]; rewrite S; [exact Ha|].
    apply update_row_other; [exact Ha|]. intros E. apply (Hl b); [left; reflexivity|].
    now symmetry. }
  destruct (post_announcement h b w) as [[[]|e] w1]; cbn [snd] in *; [|exact Ha1].
  apply IH; [|exact Ha1]. intros c Hc. apply Hl. now right.
Qed.

(** X20. The scheduler does not touch a row before its time.  With unique
    primary keys, a row that is not due at the clock of any of the turns,
    because its trigger time is later or because its flag is set, is in the
    session after those turns exactly as it was. *)
Theorem rows_not_due_are_untouched (cycles : list (Host * Z)) (w : World)
        (a : Announcement) :
  NoDup (map id (session w)) ->
  In a (session w) ->
  (forall h now, In (h, now) cycles -> is_due now a = false) ->
  In a (session (snd (announcement_check cycles w))).
Proof.
  revert w. induction cycles as [|[h now] cycles IH]; intros w Hn Ha Hnot;
    cbn [announcement_check]; [exact Ha|].
  unfold bind.
  assert (Ha1 : In a (session (snd (scheduler_cycle h now w)))).
  { rewrite scheduler_cycle_unfold. apply post_loop_untouched; [|exact Ha].
    intros b Hb. apply filter_In in Hb. destruct Hb as [Hb Hdue].
    apply (distinct_keys (session w)); auto.
    intros ->. rewrite (Hnot h now) in Hdue; [discriminate | left; reflexivity]. }
  destruct (scheduler_cycle h now w) as [[[]|e] w1] eqn:E; cbn [snd] in *; [|exact Ha1].
  apply IH; [|exact Ha1|].
  - destruct (scheduler_cycle_facts h now w _ _ E) as (new & (_ & I & _) & _).
    now rewrite I.
  - intros h' now' Hin. apply (Hnot h' now'). now right.
Qed.

Lemma rows_not_due_are_untouched_witness :
  In Demo.later
     (session (snd (announcement_check [(Demo.host, 150); (Demo.host, 300)] Demo.world))).
Proof.
  apply (rows_not_due_are_untouched [(Demo.host, 150); (Demo.host, 300)] Demo.world
           Demo.later).
  - cbn. repeat constructor; cbn; intuition discriminate.
  - right; left; reflexivity.
  - intros h now [E|[E|[]]]; inversion E; reflexivity.
Defined.

Lemma post_unknown_channel h a w :
  get_channel h (playback_channel_id a) = None ->
  post_announcement h a w = (Raise AttributeError, w).
Proof.
  intros Hc. unfold post_announcement. rewrite Hc. reflexivity.
Qed.

Lemma post_loop_stuck h a l : forall w,
  NoDup (map id l) -> In a l ->
  get_channel h (playback_channel_id a) = None ->
  In a (session w) ->
  (exists e, fst (forM_ l (post_announcement h) w) = Raise e)
  /\ In a (session (snd (forM_ l (post_announcement h) w))).
Proof.
  induction l as [|b l IH]; intros w Hn Hin Hc Ha; [contradiction|].
  cbn [forM_]. unfold bind.
  cbn [map] in Hn. inversion Hn as [|? ? Hb Hn']; subst.
  destruct Hin as [->|Hin].
  - rewrite (post_unknown_channel h a w Hc). cbn [fst snd]. split; [eauto | exact Ha].
  - pose proof (post_announcement_session h b w) as P. cbv zeta in P.
    assert (Ha1 : In a (session (snd (post_announcement h b w)))).
    { destruct P as [(S & _)|(S & _)]; rewrite S; [exact Ha|].
      apply update_row_other; [exact Ha|]. intros E. apply Hb. rewrite <- E.
      now apply in_map. }
    destruct (post_announcement h b w) as [[[]|e] w1]; cbn [fst snd] in *.
    + now apply IH.
    + split; [eauto | exact Ha1].
Qed.

(** X21. A due row whose channel the bot does not know stops the
    scheduler.  With unique primary keys, the turn that selects such a row
    ends with an exception, and the row is in the session afterwards as it
    was, so it is due again at every later clock. *)
Theorem unknown_channel_stops_the_scheduler (h : Host) (now : Z) (w : World)
        (a : Announcement) :
  NoDup (map id (session w)) ->
  In a (session w) ->
  is_due now a = true ->
  get_channel h (playback_channel_id a) = None ->
  let r := scheduler_cycle h now w in
  (exists e, fst r = Raise e)
  /\ forall later, now <= later -> In a (filter (is_due later) (session (snd r))).
Proof.
  intros Hn Ha Hdue Hc r. subst r. rewrite scheduler_cycle_unfold.
  match goal with
  | |- context [forM_ ?l _ ?w0] =>
      destruct (post_loop_stuck h a l w0) as [R S]
  end; auto.
  - now apply NoDup_keys_filter.
  - apply filter_In. split; assumption.
  - split; [exact R|]. intros later Hl. apply filter_In. split; [exact S|].
    unfold is_due in *. apply andb_true_iff in Hdue. destruct Hdue as [T F].
    rewrite F, andb_true_r. apply Z.leb_le. apply Z.leb_le in T. lia.
Qed.

Lemma unknown_channel_stops_the_scheduler_witness :
  exists e, fst (scheduler_cycle Demo.host 150
                   (Demo.world_of [Demo.hello; Demo.lost])) = Raise e.
Proof.
  refine (proj1 (unknown_channel_stops_the_scheduler Demo.host 150
                   (Demo.world_of [Demo.hello; Demo.lost]) Demo.lost _ _ eq_refl eq_refl)).
  - cbn. repeat constructor; cbn; intuition discriminate.
  - right; left; reflexivity.
Defined.

(** X22. When the store refuses the commit of the flag, the announcement is
    not delivered: the body of the scheduler's loop ends with an exception,
    no delivery is called, and the table is what it was. *)
Theorem refused_commit_means_no_delivery (h : Host) (a : Announcement) (w : World)
        (e : exn) :
  commit_result h (marked_table a w) = Some e ->
  let r := post_announcement h a w in
  (exists e', fst r = Raise e')
  /\ existsb is_delivery (new_events w (snd r)) = false
  /\ db (snd r) = db w.
Proof.
  intros Hc r. subst r.
  destruct (post_announcement_cases h a w)
    as [[e1 E] | [[e1 [_ E]] | [hook [author (_ & _ & C & _)]]]];
    [| |congruence]; rewrite E; cbn [fst snd db].
  - split; [eauto|]. split; [|reflexivity].
    rewrite (new_events_app w w []) by now rewrite app_nil_r. reflexivity.
  - split; [eauto|]. split; [|reflexivity].
    rewrite new_events_mk. reflexivity.
Qed.

Lemma refused_commit_means_no_delivery_witness :
  let h := Demo.host_with (Return [Demo.hook]) (Some SQLAlchemyError) None None in
  db (snd (post_announcement h Demo.hello Demo.world)) = db Demo.world.
Proof.
  intros h.
  exact (proj2 (proj2 (refused_commit_means_no_delivery h Demo.hello Demo.world
                         SQLAlchemyError eq_refl))).
Defined.

(** ** Who may ping *)

Section Emits.
Variable P : Event -> Prop.

Lemma emits_ret {A} (a : A) : emits P (ret a).
Proof. intros w. exists []. split; [now rewrite app_nil_r | constructor]. Qed.

Lemma emits_raise {A} (e : exn) : emits P (@raise A e).
Proof. intros w. exists []. split; [now rewrite app_nil_r | constructor]. Qed.

Lemma emits_bind {A B} (c : M A) (k : A -> M B) :
  emits P c -> (forall a, emits P (k a)) -> emits P (bind c k).
Proof.
  intros Hc Hk w. unfold bind. destruct (Hc w) as (l1 & L1 & F1).
  destruct (c w) as [[a|e] w1]; cbn [snd] in *; [|eauto].
  destruct (Hk a w1) as (l2 & L2 & F2).
  exists (l1 ++ l2)%list. split; [now rewrite L2, L1, app_assoc | now apply Forall_app].
Qed.

Lemma emits_try_except {A} (c : M A) caught (handler : exn -> M A) :
  emits P c -> (forall e, emits P (handler e)) -> emits P (try_except c caught handler).
Proof.
  intros Hc Hh w. unfold try_except. destruct (Hc w) as (l1 & L1 & F1).
  destruct (c w) as [[a|e] w1]; cbn [snd] in *; [eauto|].
  destruct (caught e); [|eauto].
  destruct (Hh e w1) as (l2 & L2 & F2).
  exists (l1 ++ l2)%list. split; [now rewrite L2, L1, app_assoc | now apply Forall_app].
Qed.

Lemma emits_emit e : P e -> emits P (emit e).
Proof. intros H w. exists [e]. split; [reflexivity | now constructor]. Qed.

Lemma emits_silent {A} (c : M A) : (forall w, log (snd (c w)) = log w) -> emits P c.
Proof. intros H w. exists []. split; [now rewrite app_nil_r | constructor]. Qed.

Lemma emits_attr {A} (o : option A) : emits P (attr o).
Proof. destruct o; [apply emits_ret | apply emits_raise]. Qed.

Lemma emits_lift_outcome {A} (o : Outcome A) : emits P (lift_outcome o).
Proof. destruct o; [apply emits_ret | apply emits_raise]. Qed.

Lemma emits_when b c : emits P c -> emits P (when b c).
Proof. intros H. destruct b; [exact H | apply emits_ret]. Qed.

Lemma emits_forM {A} (l : list A) (f : A -> M unit) :
  (forall a, emits P (f a)) -> emits P (forM_ l f).
Proof.
  intros Hf. induction l as [|a l IH]; cbn [forM_]; [apply emits_ret|].
  apply emits_bind; [apply Hf | intros _; exact IH].
Qed.

Lemma emits_mapM {A B} (f : A -> M B) (l : list A) :
  (forall a, emits P (f a)) -> emits P (mapM f l).
Proof.
  intros Hf. induction l as [|a l IH]; cbn [mapM]; [apply emits_ret|].
  apply emits_bind; [apply Hf | intros b].
  apply emits_bind; [exact IH | intros bs; apply emits_ret].
Qed.

Lemma emits_commit h : (forall t, P (EvCommit t)) -> emits P (commit h).
Proof.
  intros H w. unfold commit. destruct (commit_result h (session w)); cbn [snd log].
  - exists []. split; [now rewrite app_nil_r | constructor].
  - exists [EvCommit (session w)]. split; [reflexivity | constructor; auto].
Qed.

End Emits.

Ltac emits :=
  repeat first
    [ apply emits_bind; [|intros ?]
    | apply emits_try_except; [|intros ?]
    | apply emits_when
    | apply emits_forM; intros ?
    | apply emits_mapM; intros ?
    | apply emits_ret | apply emits_raise | apply emits_attr | apply emits_lift_outcome
    | apply emits_emit; solve [exact I | reflexivity]
    | apply emits_commit; intros ?; exact I
    | apply emits_silent; intros ?; reflexivity
    | match goal with
      | |- emits _ (match ?x with _ => _ end) => destruct x
      | |- emits _ (if ?x then _ else _) => destruct x
      end ].

Lemma emits_channel_send policy c text mentions :
  emits (delivers_with policy) (channel_send c text mentions).
Proof. unfold channel_send. emits. Qed.

Lemma emits_send_ policy ctx text : emits (delivers_with policy) (send_ ctx text).
Proof.
  unfold send_, ctx_send. apply emits_bind; [apply emits_channel_send | intros; emits].
Qed.

Lemma emits_get_webhook policy h channel :
  emits (delivers_with policy) (get_webhook h channel).
Proof. unfold get_webhook. emits. Qed.

Lemma emits_generate_announcement h channel text hook author avatar mentions :
  emits (delivers_with mentions)
        (generate_announcement h channel text hook author avatar mentions).
Proof. unfold generate_announcement, post_chunk. emits. Qed.

Lemma emits_preview_announcement h ctx content preview menu :
  emits (delivers_with None) (preview_announcement h ctx content preview menu).
Proof.
  unfold preview_announcement.
  apply emits_bind; [apply emits_get_webhook | intros hook].
  apply emits_bind; [apply emits_channel_send | intros first].
  apply emits_bind; [apply emits_generate_announcement | intros generated].
  apply emits_bind; [apply emits_channel_send | intros last].
  destruct menu; [|apply emits_ret].
  apply emits_bind; [|intros; apply emits_ret].
  unfold preview_edit_menu, confirmation, ctx_send.
  apply emits_bind; [apply emits_channel_send | intros msg].
  assert (I1 : forall r, emits (delivers_with None)
                           (interact ctx (first :: generated ++ [last]) content preview msg r)).
  { intros r. unfold interact, message_delete.
    apply emits_bind; [emits | intros _].
    destruct (_ || _)%bool.
    - apply emits_bind; [emits | intros _].
      apply emits_bind; [apply emits_when, emits_send_ | intros _].
      apply emits_bind; [apply emits_when; emits | intros _]. emits.
    - apply emits_bind; [apply emits_when, emits_send_ | intros _].
      apply emits_bind; [emits | intros _]. emits. }
  assert (T1 : emits (delivers_with None)
                 (timeout ctx (first :: generated ++ [last]) content msg)).
  { unfold timeout, message_delete.
    apply emits_bind; [emits | intros _].
    apply emits_bind; [apply emits_send_ | intros _].
    apply emits_bind; [emits | intros _]. emits. }
  destruct (await_reaction h) as [r|]; [destruct (existsb _ _)|]; auto.
Qed.

Lemma emits_post_announcement h a :
  emits (delivers_with (Some Mentions_all)) (post_announcement h a).
Proof.
  unfold post_announcement, author_info.
  apply emits_bind; [apply emits_get_webhook | intros hook].
  apply emits_bind; [emits | intros author].
  apply emits_bind; [emits | intros t].
  apply emits_bind; [emits | intros _].
  apply emits_bind; [emits | intros _].
  apply emits_bind; [emits | intros _].
  apply emits_bind; [apply emits_generate_announcement | intros; emits].
Qed.

Lemma emits_announcement_check cycles :
  emits (delivers_with (Some Mentions_all)) (announcement_check cycles).
Proof.
  induction cycles as [|[h now] cycles IH]; cbn [announcement_check]; [apply emits_ret|].
  apply emits_bind; [|intros _; exact IH].
  unfold scheduler_cycle.
  apply emits_bind; [emits | intros t].
  apply emits_bind; [emits | intros _].
  apply emits_forM. intros a. apply emits_post_announcement.
Qed.

Lemma emits_new_events P {A} (c : M A) w :
  emits P c -> Forall P (new_events w (snd (c w))).
Proof.
  intros H. destruct (H w) as (l & L & F). now rewrite (new_events_app _ _ _ L).
Qed.

(** X23. Only the scheduler lets mentions through.  Every delivery the
    scheduler task calls, over any number of turns, allows all mentions;
    every rendering that [add], [preview] and [check] call passes no mention
    policy at all, and none of them ever calls one that allows all
    mentions. *)
Theorem only_the_scheduler_allows_mentions (cycles : list (Host * Z)) (h : Host)
        (now : Z) (ctx : Context) (channel : Channel) (trigger_time : option Z)
        (content : string) (i : Z) (w : World) :
  Forall (delivers_with (Some Mentions_all))
         (new_events w (snd (announcement_check cycles w)))
  /\ Forall (delivers_with None)
            (new_events w (snd (Announcements.add h now ctx channel trigger_time content w)))
  /\ Forall (delivers_with None)
            (new_events w (snd (Announcements.preview h ctx content w)))
  /\ Forall (delivers_with None)
            (new_events w (snd (Announcements.check h ctx i w))).
Proof.
  pose proof (emits_preview_announcement h ctx) as EP.
  split; [apply emits_new_events, emits_announcement_check|].
  split; [|split]; apply emits_new_events.
  - unfold Announcements.add.
    destruct trigger_time as [t|]; [|apply emits_send_].
    destruct (t <? now); [apply emits_send_|].
    apply emits_bind; [apply EP | intros result].
    destruct result as [[|]|]; try apply emits_ret.
    unfold add_announcement.
    apply emits_bind; [emits | intros author].
    destruct author as [author_id irc_n].
    apply emits_bind; [emits | intros t0].
    apply emits_bind; [emits | intros _].
    apply emits_try_except.
    + apply emits_bind; [emits | intros _]. apply emits_send_.
    + intros e. unfold rollback.
      apply emits_bind; [|intros _].
      { intros w0. exists [EvRollback]. split; [reflexivity | repeat constructor]. }
      apply emits_bind; [emits | intros _]. apply emits_send_.
  - unfold Announcements.preview.
    apply emits_bind; [apply EP | intros; apply emits_ret].
  - unfold Announcements.check.
    apply emits_bind; [emits | intros t].
    apply emits_bind; [emits | intros found].
    apply emits_bind; [apply emits_send_ | intros _].
    apply emits_bind; [apply EP | intros; apply emits_ret].
Qed.

(** ** Under whose name an announcement is posted *)

Lemma post_announcement_run h a w hook author :
  get_webhook h (get_channel h (playback_channel_id a)) w = (Return hook, w) ->
  author_info h a w = (Return author, w) ->
  commit_result h (marked_table a w) = None ->
  exists out posts n,
    post_announcement h a w =
    (out,
     mkWorld (marked_table a w) (marked_table a w)
       (log w ++ EvTriggered (id a) :: EvCommit (marked_table a w)
          :: EvGenerate (get_channel h (playback_channel_id a)) (announcement_content a)
               hook (fst author) (snd author) (Some Mentions_all)
          :: posts)
       n).
Proof.
  intros Hw Ha Hc. unfold post_announcement.
  unfold bind at 1. rewrite Hw. unfold bind at 1. rewrite Ha.
  unfold bind at 1. unfold get_session at 1.
  unfold bind at 1. unfold put_session at 1.
  unfold bind at 1. unfold emit at 1.
  unfold bind at 1. unfold commit at 1. cbn [db session log next_msg].
  fold (marked_table a w). rewrite Hc.
  unfold bind at 1. rewrite generate_announcement_run. cbn [db session log next_msg].
  rewrite <- !app_assoc. cbn [app].
  destruct (snd _); eexists _, _, _; reflexivity.
Qed.

(** X24. Under whose name the scheduler posts.  A row with a non-empty irc
    name is delivered under that name and without an avatar, whatever the
    configuration and the user tables say.  Any other row is delivered, with
    impersonation off, under the bot's own name and avatar; with
    impersonation on, a row whose database user or whose account cannot be
    found raises [AttributeError] before anything is marked or sent. *)
Theorem scheduler_posts_under_the_right_name (h : Host) (a : Announcement) (w : World)
        (hook : option Webhook) :
  get_webhook h (get_channel h (playback_channel_id a)) w = (Return hook, w) ->
  commit_result h (marked_table a w) = None ->
  let new := new_events w (snd (post_announcement h a w)) in
  let delivery name avatar :=
    EvGenerate (get_channel h (playback_channel_id a)) (announcement_content a) hook
               name avatar (Some Mentions_all) in
  (truthy (irc_name a) = true -> In (delivery (irc_name a) None) new)
  /\ (truthy (irc_name a) = false -> ANNOUNCEMENT_IMPERSONATE h = false ->
      In (delivery (Some (name (bot_user h))) (Some (avatar_url (bot_user h)))) new)
  /\ (truthy (irc_name a) = false -> ANNOUNCEMENT_IMPERSONATE h = true ->
      announcement_user h a = None
      \/ (exists u, announcement_user h a = Some u /\ get_user h (user_uid u) = None) ->
      post_announcement h a w = (Raise AttributeError, w)).
Proof.
  intros Hw Hc new delivery. subst new delivery. cbv beta.
  split; [|split].
  - intros Ht.
    assert (Ha : author_info h a w = (Return (irc_name a, None), w))
      by (unfold author_info; rewrite Ht; reflexivity).
    destruct (post_announcement_run h a w hook _ Hw Ha Hc) as (out & posts & n & E).
    rewrite E. cbn [snd]. rewrite new_events_mk. right; right; left. reflexivity.
  - intros Ht Hi.
    assert (Ha : author_info h a w
                 = (Return (Some (name (bot_user h)), Some (avatar_url (bot_user h))), w))
      by (unfold author_info; rewrite Ht, Hi; reflexivity).
    destruct (post_announcement_run h a w hook _ Hw Ha Hc) as (out & posts & n & E).
    rewrite E. cbn [snd]. rewrite new_events_mk. right; right; left. reflexivity.
  - intros Ht Hi Hmiss.
    assert (Ha : author_info h a w = (Raise AttributeError, w)).
    { unfold author_info. rewrite Ht, Hi. unfold bind, attr, ret, raise.
      destruct Hmiss as [->|(u & -> & Hu)]; [reflexivity|].
      cbn. rewrite Hu. reflexivity. }
    unfold post_announcement. unfold bind at 1. rewrite Hw.
    unfold bind at 1. rewrite Ha. reflexivity.
Qed.

Lemma scheduler_posts_under_the_right_name_witness :
  let a := mkAnnouncement 5 1 "From IRC" 100 false 10 (Some "irc_guest") in
  In (EvGenerate (Some Demo.general) "From IRC" (Some Demo.hook) (Some "irc_guest") None
                 (Some Mentions_all))
     (new_events (Demo.world_of [a])
        (snd (post_announcement Demo.host a (Demo.world_of [a])))).
Proof.
  intros a.
  exact (proj1 (scheduler_posts_under_the_right_name Demo.host a (Demo.world_of [a])
                  (Some Demo.hook) eq_refl eq_refl) eq_refl).
Defined.
